(** * SeizureDetector: a shallow embedding of [backend/detection.py]

    The decision core of the seizure monitor is the class [SeizureDetector].
    Its methods are embedded below, one definition per method, in the order
    of the source file.

    - Numbers that Python keeps in floats (confidences, thresholds,
      velocities, clock readings) are real numbers, and a comparison is a
      decision on the reals; pixel coordinates are integers, as the pose
      extractor produces them with [int(...)].
    - The detector object [self] is a record threaded through a small
      state-and-exception monad.  A Python exception is the outcome [Raise],
      and the mutations made before it are kept.
    - Every call of [time.time()] is one reading of the clock of the call;
      the monad counts the readings.
    - A frame is a finite map from part names to keypoints; the dict of
      velocities and the pattern table are association lists in insertion
      order, the order in which Python iterates them. *)

From Stdlib Require Import Reals Lra Lia ZArith.
From stdpp Require Import base option list strings gmap.

Local Open Scope string_scope.

(** ** Python values *)

(** A keypoint is the dict [{'x': int, 'y': int, 'z': .., 'visibility': ..}];
    [detection.py] reads only ['x'] and ['y'].  A key that is missing from
    the dict is [None] here, and reading it raises [KeyError]. *)
Record Keypoint : Type := mkKeypoint {
  kx : option Z;
  ky : option Z
}.

(** [keypoints_data['keypoints']]: body-part name to keypoint. *)
Abbreviation Frame := (gmap string Keypoint).

(** The argument of [analyze_movement]: [None], or a dict in which the key
    ['keypoints'] may be missing. *)
Record KeypointsData : Type := mkData {
  keypoints_entry : option Frame
}.

(** The dict of velocities, in insertion order. *)
Abbreviation VelocityMap := (list (string * R)).

Inductive exn : Type :=
| KeyError (key : string)
| TypeError (msg : string).

Inductive outcome (A : Type) : Type :=
| Ret (a : A)
| Raise (e : exn).
Arguments Ret {A} a.
Arguments Raise {A} e.

Definition obind {A B : Type} (m : outcome A) (k : A → outcome B) : outcome B :=
  match m with
  | Ret a => k a
  | Raise e => Raise e
  end.

Notation "'try!' x ':=' m 'in' k" := (obind m (fun x => k))
  (at level 10, x pattern, m at level 100, k at level 200,
   format "'[v' 'try!'  x  ':='  m  'in' '/' k ']'").

(** Decidable comparisons on the reals, so that conditions are [if decide]. *)
#[global] Instance Rlt_decision : RelDecision Rlt := Rlt_dec.
#[global] Instance Rgt_decision : RelDecision Rgt := Rgt_dec.
#[global] Instance Rle_decision : RelDecision Rle := Rle_dec.

(** ** Result dictionaries *)

(** The text of a ['reason'] or ['description']; f-strings keep the values
    they format. *)
Inductive Reason : Type :=
| Text (s : string)
| ErrorText (e : exn)
| RapidText (count : nat)
| FreezingText (duration : R)
| PatternText (pattern_type : string).

Record Movement : Type := mkMovement {
  part : string;
  velocity : R;
  severity : string
}.

(** The keys a result carries besides detected, confidence and reason. *)
Inductive Extra : Type :=
| NoExtra
| FallExtra (body_height body_width : R)
| RapidExtra (movements : list Movement)
| ImmobilityExtra (duration : R)
| PatternExtra (pattern_type description : string).

Record DetectionResult : Type := mkResult {
  detected : bool;
  confidence : R;
  reason : Reason;
  extra : Extra
}.

Record AlertDecision : Type := mkDecision {
  alert : bool;
  alert_type : string;
  alert_confidence : R;
  description : Reason;
  details : option DetectionResult
}.

Record PatternConfig : Type := mkPattern {
  pattern_description : string;
  velocity_threshold : R;
  pattern_threshold : R
}.

(** ** The detector object *)

Record SeizureDetector : Type := mkDetector {
  fall_threshold : R;
  rapid_movement_threshold : R;
  immobility_threshold : R;
  immobility_duration_threshold : R;
  prev_keypoints : option Frame;
  immobility_start_time : option R;
  immobility_detected : bool;
  alert_cooldown : R;
  last_alert_time : R;
  movement_history : list Frame;
  velocity_history : list VelocityMap;
  seizure_patterns : list (string * PatternConfig)
}.

Definition default_patterns : list (string * PatternConfig) :=
  [ ("tonic_clonic",
     mkPattern "Tonic-clonic seizure with rhythmic movements" 80 (7 / 10));
    ("myoclonic",
     mkPattern "Myoclonic seizure with sudden jerks" 100 (6 / 10));
    ("atonic",
     mkPattern "Atonic seizure with sudden loss of muscle tone" 20 (8 / 10)) ]%R.

(** [__init__] *)
Definition init : SeizureDetector :=
  {| fall_threshold := 6 / 10;
     rapid_movement_threshold := 50;
     immobility_threshold := 5;
     immobility_duration_threshold := 10;
     prev_keypoints := None;
     immobility_start_time := None;
     immobility_detected := false;
     alert_cooldown := 5;
     last_alert_time := 0;
     movement_history := [];
     velocity_history := [];
     seizure_patterns := default_patterns |}%R.

Definition set_prev_keypoints (v : option Frame) (d : SeizureDetector) :=
  mkDetector (fall_threshold d) (rapid_movement_threshold d)
    (immobility_threshold d) (immobility_duration_threshold d)
    v (immobility_start_time d) (immobility_detected d)
    (alert_cooldown d) (last_alert_time d)
    (movement_history d) (velocity_history d) (seizure_patterns d).

Definition set_immobility (start : option R) (flag : bool) (d : SeizureDetector) :=
  mkDetector (fall_threshold d) (rapid_movement_threshold d)
    (immobility_threshold d) (immobility_duration_threshold d)
    (prev_keypoints d) start flag
    (alert_cooldown d) (last_alert_time d)
    (movement_history d) (velocity_history d) (seizure_patterns d).

Definition set_last_alert_time (t : R) (d : SeizureDetector) :=
  mkDetector (fall_threshold d) (rapid_movement_threshold d)
    (immobility_threshold d) (immobility_duration_threshold d)
    (prev_keypoints d) (immobility_start_time d) (immobility_detected d)
    (alert_cooldown d) t
    (movement_history d) (velocity_history d) (seizure_patterns d).

Definition set_history (mh : list Frame) (vh : list VelocityMap)
    (d : SeizureDetector) :=
  mkDetector (fall_threshold d) (rapid_movement_threshold d)
    (immobility_threshold d) (immobility_duration_threshold d)
    (prev_keypoints d) (immobility_start_time d) (immobility_detected d)
    (alert_cooldown d) (last_alert_time d)
    mh vh (seizure_patterns d).

(** [deque(maxlen=30).append]: the oldest entry falls out of a full deque. *)
Definition deque_append {A : Type} (q : list A) (a : A) : list A :=
  if (30 <=? length q)%nat then tail q ++ [a] else q ++ [a].

(** ** The monad of a method call

    A method runs against the clock of the call (the n-th reading of
    [time.time()]), the detector and the number of readings taken so far.
    An exception keeps the mutations made before it was raised. *)

Abbreviation Clock := (nat → R).

Record World : Type := mkWorld {
  self : SeizureDetector;
  ticks : nat
}.

Definition M (A : Type) : Type := Clock → World → outcome A * World.

Definition ret {A : Type} (a : A) : M A := fun _ w => (Ret a, w).

Definition bind {A B : Type} (m : M A) (k : A → M B) : M B :=
  fun clk w =>
    match m clk w with
    | (Ret a, w') => k a clk w'
    | (Raise e, w') => (Raise e, w')
    end.

Definition lift {A : Type} (o : outcome A) : M A := fun _ w => (o, w).

Definition get_self : M SeizureDetector := fun _ w => (Ret (self w), w).

Definition modify (f : SeizureDetector → SeizureDetector) : M unit :=
  fun _ w => (Ret tt, mkWorld (f (self w)) (ticks w)).

(** [time.time()] *)
Definition time_time : M R :=
  fun clk w => (Ret (clk (ticks w)), mkWorld (self w) (S (ticks w))).

Notation "'do!' x ':=' m 'in' k" := (bind m (fun x => k))
  (at level 10, x pattern, m at level 100, k at level 200,
   format "'[v' 'do!'  x  ':='  m  'in' '/' k ']'").

(** ** Dictionary helpers *)

(** [keypoints[part]['x']] and [keypoints[part]['y']] *)
Definition get_x (k : Keypoint) : outcome Z :=
  match kx k with
  | Some v => Ret v
  | None => Raise (KeyError "x")
  end.

Definition get_y (k : Keypoint) : outcome Z :=
  match ky k with
  | Some v => Ret v
  | None => Raise (KeyError "y")
  end.

(** [velocities[part] = velocity] on an insertion-ordered dict. *)
Fixpoint dict_set (d : VelocityMap) (k : string) (v : R) : VelocityMap :=
  match d with
  | [] => [(k, v)]
  | (k', v') :: rest =>
      if decide (k' = k) then (k, v) :: rest else (k', v') :: dict_set rest k v
  end.

Fixpoint dict_get (d : VelocityMap) (k : string) : option R :=
  match d with
  | [] => None
  | (k', v) :: rest => if decide (k' = k) then Some v else dict_get rest k
  end.

(** [np.sqrt((curr_pos[0] - prev_pos[0])**2 + (curr_pos[1] - prev_pos[1])**2)]
    with both positions read first, the current one before the previous. *)
Definition displacement (curr prev : Keypoint) : outcome R :=
  try! cx := get_x curr in
  try! cy := get_y curr in
  try! px := get_x prev in
  try! py := get_y prev in
  Ret (sqrt (IZR ((cx - px) ^ 2 + (cy - py) ^ 2))).

(** Python's [sum] and [max(.., key=..)]; [max] keeps the first of the
    elements with the greatest key. *)
Definition sumR (l : list R) : R := fold_left Rplus l 0%R.

Definition max_by {A : Type} (key : A → R) (first : A) (others : list A) : A :=
  fold_left (fun best a => if decide (key a > key best)%R then a else best)
            others first.

(** ** [_calculate_velocities] *)

Definition important_parts : list string :=
  ["left_wrist"; "right_wrist"; "left_ankle"; "right_ankle"; "nose";
   "left_shoulder"; "right_shoulder"].

Fixpoint velocities_loop (parts : list string) (keypoints prev : Frame)
    (velocities : VelocityMap) : outcome VelocityMap :=
  match parts with
  | [] => Ret velocities
  | p :: rest =>
      match keypoints !! p, prev !! p with
      | Some c, Some c' =>
          try! v := displacement c c' in
          velocities_loop rest keypoints prev (dict_set velocities p v)
      | _, _ => velocities_loop rest keypoints prev velocities
      end
  end.

Definition calculate_velocities (prev : option Frame) (keypoints : Frame)
    : outcome VelocityMap :=
  match prev with
  | None => Ret []
  | Some prev => velocities_loop important_parts keypoints prev []
  end.

Definition _calculate_velocities (keypoints : Frame) : M VelocityMap :=
  do! d := get_self in
  lift (calculate_velocities (prev_keypoints d) keypoints).

(** ** [_detect_fall] *)

Definition required_parts : list string :=
  ["nose"; "left_hip"; "right_hip"; "left_ankle"; "right_ankle"].

Definition getitem (keypoints : Frame) (p : string) : outcome Keypoint :=
  match keypoints !! p with
  | Some k => Ret k
  | None => Raise (KeyError p)
  end.

(** The body of the [try] block. *)
Definition detect_fall_body (threshold : R) (keypoints : Frame)
    : outcome DetectionResult :=
  if negb (forallb (fun p => bool_decide (is_Some (keypoints !! p))) required_parts)
  then Ret (mkResult false 0 (Text "Missing keypoints") NoExtra)
  else
    try! nose := getitem keypoints "nose" in
    try! nose_y := get_y nose in
    try! lh := getitem keypoints "left_hip" in
    try! lhy := get_y lh in
    try! rh := getitem keypoints "right_hip" in
    try! rhy := get_y rh in
    let hip_y := ((IZR lhy + IZR rhy) / 2)%R in
    try! la := getitem keypoints "left_ankle" in
    try! lay := get_y la in
    try! ra := getitem keypoints "right_ankle" in
    try! ray := get_y ra in
    let ankle_y := ((IZR lay + IZR ray) / 2)%R in
    let body_height := Rabs (hip_y - IZR nose_y) in
    let body_width := Rabs (ankle_y - hip_y) in
    let is_horizontal := bool_decide (body_width > body_height * (15 / 10))%R in
    let is_low_position := bool_decide (IZR nose_y > hip_y)%R in
    let '(fall_confidence, reason) :=
      if is_horizontal && is_low_position
      then ((8 / 10)%R, "Body in horizontal position with head below hips")
      else if is_horizontal
      then ((6 / 10)%R, "Body in horizontal position")
      else if is_low_position
      then ((4 / 10)%R, "Head position below hips")
      else (0%R, "") in
    Ret (mkResult (bool_decide (fall_confidence > threshold)%R)
                  fall_confidence (Text reason)
                  (FallExtra body_height body_width)).

(** [except Exception as e]: any exception of the body becomes a result. *)
Definition detect_fall (threshold : R) (keypoints : Frame) : DetectionResult :=
  match detect_fall_body threshold keypoints with
  | Ret r => r
  | Raise e => mkResult false 0 (ErrorText e) NoExtra
  end.

Definition _detect_fall (keypoints : Frame) : M DetectionResult :=
  do! d := get_self in
  ret (detect_fall (fall_threshold d) keypoints).

(** ** [_detect_rapid_movements] *)

Fixpoint rapid_loop (threshold : R) (items : VelocityMap) : list Movement :=
  match items with
  | [] => []
  | (p, v) :: rest =>
      if decide (v > threshold)%R
      then mkMovement p v
             (if decide (v > threshold * 2)%R then "high" else "medium")
           :: rapid_loop threshold rest
      else rapid_loop threshold rest
  end.

Definition detect_rapid_movements (threshold : R) (velocities : VelocityMap)
    : DetectionResult :=
  let rapid_movements := rapid_loop threshold velocities in
  match rapid_movements with
  | _ :: _ =>
      mkResult true
        (Rmin (9 / 10) (INR (length rapid_movements) * (3 / 10)))
        (RapidText (length rapid_movements))
        (RapidExtra rapid_movements)
  | [] =>
      mkResult false 0 (Text "No rapid movements detected") (RapidExtra [])
  end.

Definition _detect_rapid_movements (velocities : VelocityMap) : M DetectionResult :=
  do! d := get_self in
  ret (detect_rapid_movements (rapid_movement_threshold d) velocities).

(** ** [_detect_immobility] *)

(** The loop [for part in keypoints]; the dict is visited in the order of
    [map_to_list], and the sum of the movements does not depend on it. *)
Fixpoint movement_loop (items : list (string * Keypoint)) (prev : Frame)
    (total_movement : R) (movement_count : nat) : outcome (R * nat) :=
  match items with
  | [] => Ret (total_movement, movement_count)
  | (p, c) :: rest =>
      match prev !! p with
      | Some c' =>
          try! movement := displacement c c' in
          movement_loop rest prev (total_movement + movement)%R (S movement_count)
      | None => movement_loop rest prev total_movement movement_count
      end
  end.

Definition normal_movement : DetectionResult :=
  mkResult false 0 (Text "Normal movement detected") NoExtra.

(** [time.time() - self.immobility_start_time]: the clock is read, then the
    subtraction fails on [None]. *)
Definition elapsed_since_start : M R :=
  do! now := time_time in
  do! d := get_self in
  match immobility_start_time d with
  | Some start => ret (now - start)%R
  | None => lift (Raise (TypeError "unsupported operand type(s) for -: 'float' and 'NoneType'"))
  end.

Definition _detect_immobility (keypoints : Frame) : M DetectionResult :=
  do! d := get_self in
  match prev_keypoints d with
  | None => ret (mkResult false 0 (Text "No previous frame") NoExtra)
  | Some prev =>
      do! (total_movement, movement_count) :=
        lift (movement_loop (map_to_list keypoints) prev 0%R 0%nat) in
      if (0 <? movement_count)%nat then
        let avg_movement := (total_movement / INR movement_count)%R in
        if decide (avg_movement < immobility_threshold d)%R then
          do! _ :=
            (if negb (immobility_detected d) then
               do! started := time_time in
               modify (set_immobility (Some started) true)
             else ret tt) in
          do! elapsed := elapsed_since_start in
          if decide (elapsed > immobility_duration_threshold d)%R then
            do! shown := elapsed_since_start in
            do! duration := elapsed_since_start in
            ret (mkResult true (8 / 10) (FreezingText shown)
                          (ImmobilityExtra duration))
          else ret normal_movement
        else
          do! _ := modify (set_immobility None false) in
          ret normal_movement
      else ret normal_movement
  end.

(** ** [_calculate_pattern_consistency], [_analyze_seizure_pattern] and
    [_detect_seizure_patterns] *)

Definition values (velocities : VelocityMap) : list R := map snd velocities.

Fixpoint count_above (threshold : R) (vs : list R) : nat :=
  match vs with
  | [] => 0
  | v :: rest =>
      if decide (v > threshold)%R then S (count_above threshold rest)
      else count_above threshold rest
  end.

Definition _calculate_pattern_consistency (velocities : VelocityMap)
    (pattern_config : PatternConfig) : R :=
  if (length velocities =? 0)%nat then 0%R
  else
    let high_velocity_ratio :=
      (INR (count_above (velocity_threshold pattern_config) (values velocities))
       / INR (length velocities))%R in
    let avg_velocity := (sumR (values velocities) / INR (length velocities))%R in
    let velocity_ratio := (avg_velocity / velocity_threshold pattern_config)%R in
    let consistency :=
      (high_velocity_ratio * (6 / 10) + Rmin velocity_ratio 1 * (4 / 10))%R in
    Rmin consistency 1.

(** The dict of a pattern that matched, and the two shapes of the result of
    [_analyze_seizure_pattern]. *)
Record PatternMatch : Type := mkMatch {
  m_confidence : R;
  m_pattern_type : string;
  m_description : string;
  m_avg_velocity : R
}.

Inductive PatternOutcome : Type :=
| Matched (m : PatternMatch)
| NotMatched (pattern_type : string).

Definition _analyze_seizure_pattern (velocities : VelocityMap)
    (pattern_config : PatternConfig) : PatternOutcome :=
  let high_velocity_count :=
    count_above (velocity_threshold pattern_config) (values velocities) in
  let total_velocity := sumR (values velocities) in
  if (0 <? length velocities)%nat then
    let avg_velocity := (total_velocity / INR (length velocities))%R in
    let pattern_consistency :=
      _calculate_pattern_consistency velocities pattern_config in
    if decide (pattern_consistency > pattern_threshold pattern_config)%R then
      Matched (mkMatch pattern_consistency (pattern_description pattern_config)
                       (pattern_description pattern_config) avg_velocity)
    else NotMatched (pattern_description pattern_config)
  else NotMatched (pattern_description pattern_config).

Fixpoint detected_patterns (patterns : list (string * PatternConfig))
    (velocities : VelocityMap) : list PatternMatch :=
  match patterns with
  | [] => []
  | (_, pattern_config) :: rest =>
      match _analyze_seizure_pattern velocities pattern_config with
      | Matched m => m :: detected_patterns rest velocities
      | NotMatched _ => detected_patterns rest velocities
      end
  end.

Definition detect_seizure_patterns (patterns : list (string * PatternConfig))
    (velocities : VelocityMap) : DetectionResult :=
  match detected_patterns patterns velocities with
  | first :: others =>
      let best_pattern := max_by m_confidence first others in
      mkResult true (m_confidence best_pattern)
        (PatternText (m_pattern_type best_pattern))
        (PatternExtra (m_pattern_type best_pattern) (m_description best_pattern))
  | [] => mkResult false 0 (Text "No seizure patterns detected") NoExtra
  end.

Definition _detect_seizure_patterns (velocities : VelocityMap) : M DetectionResult :=
  do! d := get_self in
  ret (detect_seizure_patterns (seizure_patterns d) velocities).

(** ** [_create_no_alert_result] and [_determine_alert] *)

Definition _create_no_alert_result : AlertDecision :=
  mkDecision false "none" 0 (Text "No abnormal movements detected") None.

Record AlertEntry : Type := mkEntry {
  e_type : string;
  e_confidence : R;
  e_description : Reason;
  e_details : DetectionResult
}.

Fixpoint alerts (detection_results : list (string * DetectionResult))
    : list AlertEntry :=
  match detection_results with
  | [] => []
  | (detection_type, result) :: rest =>
      if detected result
      then mkEntry detection_type (confidence result) (reason result) result
           :: alerts rest
      else alerts rest
  end.

Definition _determine_alert (detection_results : list (string * DetectionResult))
    : AlertDecision :=
  match alerts detection_results with
  | first :: others =>
      let best_alert := max_by e_confidence first others in
      mkDecision true (e_type best_alert) (e_confidence best_alert)
                 (e_description best_alert) (Some (e_details best_alert))
  | [] => _create_no_alert_result
  end.

(** ** [analyze_movement] *)

(** The dict [detection_results]: the four analyzers in the order the dict
    display evaluates them. *)
Definition detection_results (keypoints : Frame) (velocities : VelocityMap)
    : M (list (string * DetectionResult)) :=
  do! fall := _detect_fall keypoints in
  do! rapid_movements := _detect_rapid_movements velocities in
  do! immobility := _detect_immobility keypoints in
  do! patterns := _detect_seizure_patterns velocities in
  ret [("fall", fall); ("rapid_movements", rapid_movements);
       ("immobility", immobility); ("seizure_patterns", patterns)].

Definition analyze_movement (keypoints_data : option KeypointsData)
    : M AlertDecision :=
  match keypoints_data with
  | None => ret _create_no_alert_result
  | Some data =>
      match keypoints_entry data with
      | None => ret _create_no_alert_result
      | Some keypoints =>
          do! current_time := time_time in
          do! d := get_self in
          if decide (current_time - last_alert_time d < alert_cooldown d)%R
          then ret _create_no_alert_result
          else
            do! velocities := _calculate_velocities keypoints in
            do! _ := modify (fun d =>
                       set_history (deque_append (movement_history d) keypoints)
                                   (deque_append (velocity_history d) velocities) d) in
            do! results := detection_results keypoints velocities in
            let alert_result := _determine_alert results in
            do! _ := modify (set_prev_keypoints (Some keypoints)) in
            do! _ := (if alert alert_result
                      then modify (set_last_alert_time current_time)
                      else ret tt) in
            ret alert_result
      end
  end.

(** [reset_state] *)
Definition reset_state (d : SeizureDetector) : SeizureDetector :=
  mkDetector (fall_threshold d) (rapid_movement_threshold d)
    (immobility_threshold d) (immobility_duration_threshold d)
    None None false (alert_cooldown d) 0 [] [] (seizure_patterns d).

(** One call of [analyze_movement] on a detector: the clock of the call is
    read from its first reading on. *)
Definition call (clk : Clock) (keypoints_data : option KeypointsData)
    (d : SeizureDetector) : outcome AlertDecision * SeizureDetector :=
  let '(r, w) := analyze_movement keypoints_data clk (mkWorld d 0) in
  (r, self w).

(** A stream of calls on one detector, each with its clock: the outcomes in
    order, and the detector after the last call. *)
Fixpoint feed (calls : list (Clock * option KeypointsData)) (d : SeizureDetector)
    : list (outcome AlertDecision) * SeizureDetector :=
  match calls with
  | [] => ([], d)
  | (clk, keypoints_data) :: rest =>
      let '(r, d') := call clk keypoints_data d in
      let '(rs, d'') := feed rest d' in
      (r :: rs, d'')
  end.

(** ** Well-formed input *)

Local Open Scope R_scope.

(** A keypoint as the pose extractor builds it: both coordinates present. *)
Definition wf_keypoint (c : Keypoint) : Prop := is_Some (kx c) ∧ is_Some (ky c).

Definition wf_frame (f : Frame) : Prop := map_Forall (fun _ c => wf_keypoint c) f.

(** The timer invariant of the detector: a running timer has a start time. *)
Definition timer_ok (d : SeizureDetector) : Prop :=
  immobility_detected d = true → is_Some (immobility_start_time d).

(** A detector as the calls on well-formed frames leave it. *)
Definition wf_detector (d : SeizureDetector) : Prop :=
  (∀ prev, prev_keypoints d = Some prev → wf_frame prev) ∧ timer_ok d.

(** The frame has the five parts the fall analyzer reads, each with a
    ['y'] coordinate. *)
Definition fall_parts (keypoints : Frame) (nose_y lhy rhy lay ray : Z) : Prop :=
  (∃ c, keypoints !! "nose" = Some c ∧ ky c = Some nose_y) ∧
  (∃ c, keypoints !! "left_hip" = Some c ∧ ky c = Some lhy) ∧
  (∃ c, keypoints !! "right_hip" = Some c ∧ ky c = Some rhy) ∧
  (∃ c, keypoints !! "left_ankle" = Some c ∧ ky c = Some lay) ∧
  (∃ c, keypoints !! "right_ankle" = Some c ∧ ky c = Some ray).

(** ** Notions the statements are written in *)

(** The Euclidean pixel distance between two positions. *)
Definition euclid (x y x' y' : Z) : R :=
  sqrt (IZR ((x - x') ^ 2 + (y - y') ^ 2)).

(** The parts of the current frame that the previous frame has too, each
    with its two keypoints; how far such a part moved; and the average
    movement of the comparable parts. *)
Definition comparable_items (items : list (string * Keypoint)) (prev : Frame)
    : list (Keypoint * Keypoint) :=
  omap (fun pc => match prev !! pc.1 with
                  | Some c' => Some (pc.2, c')
                  | None => None
                  end) items.

Definition comparable_parts (keypoints prev : Frame) : list (Keypoint * Keypoint) :=
  comparable_items (map_to_list keypoints) prev.

Definition moved (cc : Keypoint * Keypoint) : R :=
  euclid (default 0%Z (kx cc.1)) (default 0%Z (ky cc.1))
         (default 0%Z (kx cc.2)) (default 0%Z (ky cc.2)).

Definition average_movement (keypoints prev : Frame) : R :=
  sumR (map moved (comparable_parts keypoints prev))
  / INR (length (comparable_parts keypoints prev)).

(** A pattern of the table matches when there are velocities and its
    consistency is strictly above its threshold. *)
Definition pattern_matches (velocities : VelocityMap)
    (entry : string * PatternConfig) : Prop :=
  (0 < length velocities)%nat ∧
  _calculate_pattern_consistency velocities entry.2 > pattern_threshold entry.2.

#[global] Instance pattern_matches_dec velocities entry :
  Decision (pattern_matches velocities entry) :=
  ltac:(unfold pattern_matches; apply _).

(** The patterns of the table that match, in the order of the table. *)
Definition matching_patterns (patterns : list (string * PatternConfig))
    (velocities : VelocityMap) : list (string * PatternConfig) :=
  filter (pattern_matches velocities) patterns.

(** The result of [_detect_immobility] on the first frame. *)
Definition no_previous_frame : DetectionResult :=
  mkResult false 0 (Text "No previous frame") NoExtra.

(** The two appends to the history deques, and the state update that ends
    [analyze_movement]. *)
Definition store_history (keypoints : Frame) (velocities : VelocityMap)
    (d : SeizureDetector) : SeizureDetector :=
  set_history (deque_append (movement_history d) keypoints)
              (deque_append (velocity_history d) velocities) d.

Definition commit (keypoints : Frame) (current_time : R) (r : AlertDecision)
    (d : SeizureDetector) : SeizureDetector :=
  let d' := set_prev_keypoints (Some keypoints) d in
  if alert r then set_last_alert_time current_time d' else d'.

(** The list the arbiter receives when the immobility result is [immobility]
    and the detector after the analyzers is [d']. *)
Definition results_of (d d' : SeizureDetector) (keypoints : Frame)
    (velocities : VelocityMap) (immobility : DetectionResult)
    : list (string * DetectionResult) :=
  [("fall", detect_fall (fall_threshold d) keypoints);
   ("rapid_movements",
    detect_rapid_movements (rapid_movement_threshold d) velocities);
   ("immobility", immobility);
   ("seizure_patterns", detect_seizure_patterns (seizure_patterns d') velocities)].

Definition unit_interval (c : R) : Prop := 0 <= c <= 1.

Definition nonneg_velocities (velocities : VelocityMap) : Prop :=
  Forall (fun kv => 0 <= kv.2) velocities.

(** What holds of each of the four results: a confidence in the unit
    interval; confidence 0 when an analyzer other than the fall analyzer
    did not detect; one of the four posture scores for the fall analyzer. *)
Definition result_ok (nr : string * DetectionResult) : Prop :=
  unit_interval (confidence nr.2) ∧
  (nr.1 ≠ "fall" → detected nr.2 = false → confidence nr.2 = 0) ∧
  (nr.1 = "fall" →
   confidence nr.2 = 0 ∨ confidence nr.2 = 4 / 10 ∨
   confidence nr.2 = 6 / 10 ∨ confidence nr.2 = 8 / 10).

(** ** Frames, detectors and clocks used in the examples *)

Definition kpt (x y : Z) : Keypoint := mkKeypoint (Some x) (Some y).

Definition hips_only : Frame :=
  {[ "left_hip" := kpt 100 200 ]}.

Definition nose_at (x y : Z) : Frame :=
  {[ "nose" := kpt x y ]}.

(** A body whose hips are level and whose ankles are level: (110, 100, 120)
    is lying with the head below the hips, (100, 100, 110) is lying with the
    head level with the hips. *)
Definition body (nose_y hip_y ankle_y : Z) : Frame :=
  list_to_map
    [("nose", kpt 320 nose_y);
     ("left_hip", kpt 300 hip_y); ("right_hip", kpt 340 hip_y);
     ("left_ankle", kpt 300 ankle_y); ("right_ankle", kpt 340 ankle_y)].

Definition collapsed : option KeypointsData :=
  Some (mkData (Some (body 110 100 120))).

Definition still : option KeypointsData := Some (mkData (Some (nose_at 0 0))).

(** A frame whose keypoint dicts carry neither ['x'] nor ['y']. *)
Definition uncoordinated : Frame :=
  list_to_map
    [("nose", mkKeypoint None None);
     ("left_hip", mkKeypoint None None); ("right_hip", mkKeypoint None None);
     ("left_ankle", mkKeypoint None None); ("right_ankle", mkKeypoint None None)].

(** A detector that alerted at time 1000 on a frame with the nose at the
    origin. *)
Definition alerted_at_1000 : SeizureDetector :=
  set_last_alert_time 1000 (set_prev_keypoints (Some (nose_at 0 0)) init).

(** A subject at rest whose immobility timer started at time 990. *)
Definition frozen_since_990 : SeizureDetector :=
  set_immobility (Some 990) true (set_prev_keypoints (Some (nose_at 0 0)) init).

(** Two calls on the collapsed body, two seconds apart; and two calls on
    the frame without coordinates. *)
Definition alert_stream : list (Clock * option KeypointsData) :=
  [(fun _ => 1000, collapsed); (fun _ => 1002, collapsed)].

Definition uncoordinated_stream : list (Clock * option KeypointsData) :=
  [(fun _ => 1000, Some (mkData (Some uncoordinated)));
   (fun _ => 1001, Some (mkData (Some uncoordinated)))].

(** A clock that reads 1000 five times and 2000 from then on, and one whose
    second and later readings come one second after the first. *)
Definition drifting_clock : Clock :=
  fun n => if (n <? 5)%nat then 1000 else 2000.

Definition late_clock : Clock :=
  fun n => match n with O => 1000 | S _ => 1001 end.

(** ** Further notions *)

(** The results the arbiter keeps: those whose [detected] flag is set. *)
Definition flagged (results : list (string * DetectionResult))
    : list (string * DetectionResult) :=
  filter (fun nr => detected nr.2 = true) results.

(** The keys of a velocity dict, in order. *)
Definition keys (velocities : VelocityMap) : list string := map fst velocities.


(** An outcome that is a result or one of the two [KeyError]s of a keypoint
    dict without coordinates. *)
Definition returns_or_key_error {A : Type} (o : outcome A) : Prop :=
  (∃ a, o = Ret a) ∨ o = Raise (KeyError "x") ∨ o = Raise (KeyError "y").

(** Both history deques have the same length, at most the [maxlen] of 30. *)
Definition history_ok (d : SeizureDetector) : Prop :=
  length (movement_history d) = length (velocity_history d) ∧
  (length (movement_history d) <= 30)%nat.

(** ** [video_processing.py]: the analyzers of [VideoProcessor]

    The class carries stateless variants of three analyzers.  Their loops
    are those of [SeizureDetector], so the embeddings reuse [velocities_loop],
    [movement_loop] and the body of [_detect_fall]. *)

Module VideoProcessor.

(** [calculate_movement_velocity]: the same loop over five parts, without
    the shoulders. *)
Definition important_parts : list string :=
  ["left_wrist"; "right_wrist"; "left_ankle"; "right_ankle"; "nose"].

Definition calculate_movement_velocity (keypoints : Frame)
    (prev_keypoints : option Frame) : outcome VelocityMap :=
  match prev_keypoints with
  | None => Ret []
  | Some prev => velocities_loop important_parts keypoints prev []
  end.

(** [detect_fall]: line for line the body of [SeizureDetector._detect_fall],
    with the literal [0.5] where the detector reads [self.fall_threshold]. *)
Definition detect_fall (keypoints : Frame) : DetectionResult :=
  detect_fall (5 / 10) keypoints.

(** [detect_rapid_movements(velocities, threshold=50.0)]: the body of
    [SeizureDetector._detect_rapid_movements] with the threshold as an
    argument. *)
Definition detect_rapid_movements (velocities : VelocityMap) (threshold : R)
    : DetectionResult :=
  detect_rapid_movements threshold velocities.

(** The result dict of [detect_immobility]; the key ['avg_movement'] is
    missing from the result for the first frame. *)
Inductive ImmobilityReason : Type :=
| LowMovementText (avg_movement : R)
| PlainText (s : string).

Record ImmobilityResult : Type := mkImmobility {
  im_detected : bool;
  im_confidence : R;
  im_reason : ImmobilityReason;
  im_avg_movement : option R
}.

Definition detect_immobility (keypoints : Frame) (prev_keypoints : option Frame)
    (immobility_threshold : R) : outcome ImmobilityResult :=
  match prev_keypoints with
  | None => Ret (mkImmobility false 0 (PlainText "No previous frame") None)
  | Some prev =>
      try! (total_movement, movement_count) :=
        movement_loop (map_to_list keypoints) prev 0 0%nat in
      if (0 <? movement_count)%nat then
        let avg_movement := total_movement / INR movement_count in
        if decide (avg_movement < immobility_threshold) then
          Ret (mkImmobility true (7 / 10) (LowMovementText avg_movement)
                            (Some avg_movement))
        else
          Ret (mkImmobility false 0 (PlainText "Normal movement detected")
                            (Some avg_movement))
      else
        Ret (mkImmobility false 0 (PlainText "Normal movement detected") (Some 0))
  end.

(** *** The pose extractor

    [keypoint_names], in the order of the dict literal of [__init__]. *)
Definition keypoint_names : list (string * nat) :=
  [("nose", 0); ("left_eye", 2); ("right_eye", 5); ("left_ear", 7);
   ("right_ear", 8); ("left_shoulder", 11); ("right_shoulder", 12);
   ("left_elbow", 13); ("right_elbow", 14); ("left_wrist", 15);
   ("right_wrist", 16); ("left_hip", 23); ("right_hip", 24);
   ("left_knee", 25); ("right_knee", 26); ("left_ankle", 27);
   ("right_ankle", 28)]%nat.

(** A MediaPipe landmark: normalized coordinates, depth and visibility. *)
Record Landmark : Type := mkLandmark {
  lx : R;
  ly : R;
  lz : R;
  visibility : R
}.

(** Python's [int] on a float: truncation towards zero. *)
Definition int (r : R) : Z :=
  if decide (0 <= r) then Int_part r else (- Int_part (- r))%Z.

(** The loop of [_extract_landmarks]; [None] is the [IndexError] of
    [landmarks.landmark[idx]].  The keypoint dict keeps ['x'] and ['y'];
    ['z'] and ['visibility'] are read by no analyzer. *)
Fixpoint landmarks_loop (names : list (string * nat)) (landmarks : list Landmark)
    (height width : Z) (keypoints : Frame) : option Frame :=
  match names with
  | [] => Some keypoints
  | (name, idx) :: rest =>
      match landmarks !! idx with
      | None => None
      | Some landmark =>
          let x := int (lx landmark * IZR width) in
          let y := int (ly landmark * IZR height) in
          landmarks_loop rest landmarks height width
            (<[name := mkKeypoint (Some x) (Some y)]> keypoints)
      end
  end.

(** [_extract_landmarks]; [height, width = frame_shape[:2]] raises on a
    shape of fewer than two dimensions. *)
Definition _extract_landmarks (landmarks : list Landmark) (frame_shape : list Z)
    : option Frame :=
  match frame_shape with
  | height :: width :: _ => landmarks_loop keypoint_names landmarks height width ∅
  | _ => None
  end.

(** [extract_keypoints]: [frame] is the shape of the frame, [None] for a
    [None] frame; [pose] is what [cv2.cvtColor] and [self.pose.process] give:
    [None] when one of them raises, [Some None] when no pose is found.
    Every exception is caught and turned into [None]. *)
Definition extract_keypoints (frame : option (list Z))
    (pose : option (option (list Landmark))) : option KeypointsData :=
  match frame with
  | None => None
  | Some frame_shape =>
      match pose with
      | None => None
      | Some None => None
      | Some (Some pose_landmarks) =>
          match _extract_landmarks pose_landmarks frame_shape with
          | Some keypoints => Some (mkData (Some keypoints))
          | None => None
          end
      end
  end.

End VideoProcessor.

(** ** [app.py]: the class [SeizureDetectionBackend]

    Decoding the image (base64, PIL, OpenCV) is outside the embedding:
    [process_image] takes what decoding and [extract_keypoints] leave, which
    is an exception before the analysis, no pose, or the keypoints data.  The log file and the socket are the two lists of
    [Outside]; [random.choice], [datetime.now()], the clock and the success
    of the two writes are read from an [Oracle].  Calls of [logger] are
    left out. *)

Module Backend.

Record AlertData : Type := mkAlertData {
  timestamp : string;
  data_alert_type : string;
  data_confidence : R;
  data_description : Reason
}.

(** The line [f"{timestamp} - {alert_type} - {description}\n"]. *)
Record LogEntry : Type := mkLogEntry {
  log_timestamp : string;
  log_alert_type : string;
  log_description : Reason
}.

Record SeizureDetectionBackend : Type := mkBackend {
  seizure_detector : option SeizureDetector;
  is_monitoring : bool;
  alert_count : nat
}.

(** [initialize_components], when both constructors succeed: the detector
    is a fresh [SeizureDetector()]. *)
Definition initialize_components (b : SeizureDetectionBackend)
    : SeizureDetectionBackend :=
  mkBackend (Some init) (is_monitoring b) (alert_count b).

(** [__init__] *)
Definition init : SeizureDetectionBackend := mkBackend None false 0.

Record Outside : Type := mkOutside {
  event_log : list LogEntry;
  broadcast : list AlertData
}.

Record Oracle : Type := mkOracle {
  clock : Clock;
  now_isoformat : string;
  random_choice : bool;
  log_write_ok : bool;
  emit_ok : bool
}.

Definition set_detector (d : SeizureDetector) (b : SeizureDetectionBackend) :=
  mkBackend (Some d) (is_monitoring b) (alert_count b).

(** The two dicts built around [random.choice([True, False, False, False])]. *)
Definition fallback (type : string) (confidence : R) (seizure_detected : bool)
    : AlertDecision :=
  mkDecision seizure_detected type
    (if seizure_detected then confidence else 0)
    (Text (if seizure_detected then "Seizure detected" else "No seizure detected"))
    None.

(** [_log_alert]: a failed write is caught and logged, the file is left as
    it was. *)
Definition _log_alert (o : Oracle) (alert_data : AlertData) (out : Outside)
    : Outside :=
  if log_write_ok o
  then mkOutside (event_log out
                  ++ [mkLogEntry (timestamp alert_data)
                                 (data_alert_type alert_data)
                                 (data_description alert_data)])
                 (broadcast out)
  else out.

(** [_handle_alert]: [None] when [socketio.emit] raises. *)
Definition _handle_alert (o : Oracle) (detection_result : AlertDecision)
    (b : SeizureDetectionBackend) (out : Outside)
    : option unit * SeizureDetectionBackend * Outside :=
  let b := mkBackend (seizure_detector b) (is_monitoring b) (S (alert_count b)) in
  let alert_data :=
    mkAlertData (now_isoformat o) (alert_type detection_result)
                (alert_confidence detection_result)
                (description detection_result) in
  let out := _log_alert o alert_data out in
  if emit_ok o
  then (Some tt, b,
        mkOutside (event_log out) (broadcast out ++ [alert_data]))
  else (None, b, out).

(** [process_image]; [extracted] is [None] when decoding or extraction
    raised, [Some None] when no pose was found. *)
Definition process_image (extracted : option (option KeypointsData))
    (o : Oracle) (b : SeizureDetectionBackend) (out : Outside)
    : AlertDecision * SeizureDetectionBackend * Outside :=
  match extracted with
  | None => (fallback "error_fallback" (3 / 10) (random_choice o), b, out)
  | Some None => (fallback "fallback_detection" (5 / 10) (random_choice o), b, out)
  | Some (Some keypoints_data) =>
      match seizure_detector b with
      | None => (fallback "error_fallback" (3 / 10) (random_choice o), b, out)
      | Some d =>
          match call (clock o) (Some keypoints_data) d with
          | (Raise _, d') =>
              (fallback "error_fallback" (3 / 10) (random_choice o),
               set_detector d' b, out)
          | (Ret detection_result, d') =>
              let b := set_detector d' b in
              if alert detection_result then
                match _handle_alert o detection_result b out with
                | (Some _, b, out) => (detection_result, b, out)
                | (None, b, out) =>
                    (fallback "error_fallback" (3 / 10) (random_choice o), b, out)
                end
              else (detection_result, b, out)
          end
      end
  end.

(** [start_monitoring] and [stop_monitoring] *)
Definition start_monitoring (b : SeizureDetectionBackend)
    : bool * SeizureDetectionBackend :=
  if negb (is_monitoring b)
  then (true, mkBackend (seizure_detector b) true (alert_count b))
  else (false, b).

Definition stop_monitoring (b : SeizureDetectionBackend)
    : bool * SeizureDetectionBackend :=
  if is_monitoring b
  then (true, mkBackend (seizure_detector b) false (alert_count b))
  else (false, b).

(** A stream of images through [process_image]. *)
Fixpoint serve (frames : list (option (option KeypointsData) * Oracle))
    (b : SeizureDetectionBackend) (out : Outside)
    : list AlertDecision * SeizureDetectionBackend * Outside :=
  match frames with
  | [] => ([], b, out)
  | (extracted, o) :: rest =>
      let '(r, b', out') := process_image extracted o b out in
      let '(rs, b'', out'') := serve rest b' out' in
      (r :: rs, b'', out'')
  end.

(** A stream of start and stop requests ([true] is a start). *)
Fixpoint switch (requests : list bool) (b : SeizureDetectionBackend)
    : list bool * SeizureDetectionBackend :=
  match requests with
  | [] => ([], b)
  | start :: rest =>
      let '(ok, b') := if start then start_monitoring b else stop_monitoring b in
      let '(oks, b'') := switch rest b' in
      (ok :: oks, b'')
  end.

End Backend.

(** The four alert types of the detector. *)
Definition detector_alert_types : list string :=
  ["fall"; "rapid_movements"; "immobility"; "seizure_patterns"].

(** ** Notions of the backend's accounting *)

(** What one call of [process_image] records. *)
Definition recorded (o : Backend.Oracle) (r0 : AlertDecision)
    (out out' : Backend.Outside) : Prop :=
  Backend.event_log out'
  = (Backend.event_log out
     ++ if Backend.log_write_ok o
        then [Backend.mkLogEntry (Backend.now_isoformat o) (alert_type r0)
                                 (description r0)]
        else [])%list ∧
  Backend.broadcast out'
  = (Backend.broadcast out
     ++ if Backend.emit_ok o
        then [Backend.mkAlertData (Backend.now_isoformat o) (alert_type r0)
                                  (alert_confidence r0) (description r0)]
        else [])%list.

(** An answer of one of the two fallback types. *)
Definition is_fallback (r : AlertDecision) : Prop :=
  alert_type r = "fallback_detection" ∨ alert_type r = "error_fallback".

(** The detector results among the answers of a stream: alerts of one of the
    four detector types. *)
Definition detector_alerts (rs : list AlertDecision) : list AlertDecision :=
  filter (fun r => alert r = true ∧ alert_type r ∈ detector_alert_types) rs.

(** An image during which the write to the log and the emit both succeed. *)
Definition io_succeeds (fo : option (option KeypointsData) * Backend.Oracle)
    : Prop :=
  Backend.log_write_ok fo.2 = true ∧ Backend.emit_ok fo.2 = true.

(** The backend with its monitoring flag set to [m]. *)
Definition set_monitoring (m : bool) (b : Backend.SeizureDetectionBackend)
    : Backend.SeizureDetectionBackend :=
  Backend.mkBackend (Backend.seizure_detector b) m (Backend.alert_count b).

(** The state of the flag after a stream of requests, and the answers: a
    request is answered [True] when it differs from the flag it meets. *)
Fixpoint last_request (requests : list bool) (m : bool) : bool :=
  match requests with
  | [] => m
  | start :: rest => last_request rest start
  end.

Fixpoint changes (requests : list bool) (m : bool) : list bool :=
  match requests with
  | [] => []
  | start :: rest => xorb start m :: changes rest start
  end.

(** An oracle whose writes succeed, with the clock standing at [t]. *)
Definition reliable (t : R) : Backend.Oracle :=
  Backend.mkOracle (fun _ => t) "2024-01-01T00:00:00" false true true.

(** An image that decoded and went through [extract_keypoints]. *)
Definition from_extractor (extracted : option (option KeypointsData)) : Prop :=
  ∃ frame pose, extracted = Some (VideoProcessor.extract_keypoints frame pose).

(** A backend whose components are initialized and whose detector is as
    calls on well-formed frames leave it. *)
Definition ready (b : Backend.SeizureDetectionBackend) : Prop :=
  ∃ d, Backend.seizure_detector b = Some d ∧ wf_detector d.

(** Thirty-three landmarks at the centre of the image, and the image they
    come from as [process_image] gets it. *)
Definition centered : list VideoProcessor.Landmark :=
  replicate 33 (VideoProcessor.mkLandmark (1 / 2) (1 / 2) 0 1).

Definition camera_frame : option (option KeypointsData) * Backend.Oracle :=
  (Some (VideoProcessor.extract_keypoints (Some [480; 640; 3]%Z)
           (Some (Some centered))),
   reliable 1000).

(** * Properties *)

Section Velocities.

Local Open Scope R_scope.

Lemma wf_keypoint_inv c :
  wf_keypoint c → ∃ x y, c = kpt x y.
Proof.
  destruct c as [[x|] [y|]]; intros [[? ?] [? ?]]; simplify_eq/=.
  by eexists _, _.
Qed.

Lemma displacement_kpt x y x' y' :
  displacement (kpt x y) (kpt x' y') = Ret (euclid x y x' y').
Proof. reflexivity. Qed.

Lemma euclid_nonneg x y x' y' : 0 <= euclid x y x' y'.
Proof. apply sqrt_pos. Qed.

Lemma dict_get_set (d : VelocityMap) k v k' :
  dict_get (dict_set d k v) k' = if decide (k = k') then Some v else dict_get d k'.
Proof.
  induction d as [|[k0 v0] d IH]; simpl.
  - repeat case_decide; congruence.
  - destruct (decide (k0 = k)) as [->|Hne]; simpl.
    + repeat case_decide; congruence.
    + rewrite IH. repeat case_decide; congruence.
Qed.

Local Ltac membership :=
  match goal with
  | n : ?p ∉ _ :: _ |- _ => apply n, elem_of_cons; by auto
  | e : ?p ∈ _ :: _ |- _ => apply elem_of_cons in e as [?|?]; by auto
  end.

(** What the loop over a list of parts leaves in the dict. *)
Lemma velocities_loop_spec parts (keypoints prev : Frame) acc :
  wf_frame keypoints → wf_frame prev →
  ∃ vs, velocities_loop parts keypoints prev acc = Ret vs ∧
    ∀ p, dict_get vs p =
         match keypoints !! p, prev !! p with
         | Some c, Some c' =>
             if decide (p ∈ parts)
             then Some (euclid (default 0%Z (kx c)) (default 0%Z (ky c))
                               (default 0%Z (kx c')) (default 0%Z (ky c')))
             else dict_get acc p
         | _, _ => dict_get acc p
         end.
Proof.
  intros Hk Hp. revert acc.
  induction parts as [|q parts IH]; intros acc; simpl.
  - exists acc. split; [done|]. intros p.
    destruct (keypoints !! p), (prev !! p); done.
  - destruct (keypoints !! q) as [c|] eqn:Hc; [destruct (prev !! q) as [c'|] eqn:Hc'|].
    + destruct (wf_keypoint_inv c (Hk _ _ Hc)) as (x & y & ->).
      destruct (wf_keypoint_inv c' (Hp _ _ Hc')) as (x' & y' & ->).
      rewrite displacement_kpt. simpl.
      destruct (IH (dict_set acc q (euclid x y x' y'))) as (vs & -> & Hvs).
      exists vs. split; [done|]. intros p. rewrite Hvs, dict_get_set.
      destruct (decide (q = p)) as [<-|Hne].
      * rewrite Hc, Hc'. simpl. destruct (decide (q ∈ parts)) as [e1|n1], (decide (q ∈ q :: parts)) as [e2|n2];
          try done; exfalso; membership.
      * destruct (keypoints !! p), (prev !! p); try done.
        destruct (decide (p ∈ parts)) as [e1|n1], (decide (p ∈ q :: parts)) as [e2|n2];
          try done; exfalso; membership.
    + destruct (IH acc) as (vs & -> & Hvs).
      exists vs. split; [done|]. intros p. rewrite Hvs.
      destruct (decide (q = p)) as [<-|Hne].
      * by rewrite Hc, Hc'.
      * destruct (keypoints !! p), (prev !! p); try done.
        destruct (decide (p ∈ parts)) as [e1|n1], (decide (p ∈ q :: parts)) as [e2|n2];
          try done; exfalso; membership.
    + destruct (IH acc) as (vs & -> & Hvs).
      exists vs. split; [done|]. intros p. rewrite Hvs.
      destruct (decide (q = p)) as [<-|Hne].
      * by rewrite Hc.
      * destruct (keypoints !! p), (prev !! p); try done.
        destruct (decide (p ∈ parts)) as [e1|n1], (decide (p ∈ q :: parts)) as [e2|n2];
          try done; exfalso; membership.
Qed.

Lemma wf_frame_singleton p x y : wf_frame {[ p := kpt x y ]}.
Proof. apply map_Forall_singleton. split; by eexists. Qed.

(** C3, as amended: on well-formed frames [_calculate_velocities] returns,
    without touching the detector, a dict that holds the Euclidean pixel
    distance for every part of [important_parts] present in both frames and
    nothing for any other part; a part that is in both frames but not among
    the seven important parts has no entry, and with no previous frame the
    dict is empty. *)
Theorem calculate_velocities_important (keypoints prev : Frame) (clk : Clock)
    (w : World) :
  wf_frame keypoints → wf_frame prev →
  prev_keypoints (self w) = Some prev →
  ∃ velocities,
    _calculate_velocities keypoints clk w = (Ret velocities, w) ∧
    (∀ p x y x' y',
        p ∈ important_parts →
        keypoints !! p = Some (kpt x y) → prev !! p = Some (kpt x' y') →
        dict_get velocities p = Some (euclid x y x' y')) ∧
    (∀ p, keypoints !! p = None ∨ prev !! p = None ∨ p ∉ important_parts →
          dict_get velocities p = None) ∧
    calculate_velocities None keypoints = Ret [].
Proof.
  intros Hk Hp Hprev.
  destruct (velocities_loop_spec important_parts keypoints prev [] Hk Hp)
    as (vs & Hrun & Hvs).
  exists vs. unfold _calculate_velocities, bind, get_self, lift.
  rewrite Hprev. unfold calculate_velocities. rewrite Hrun. split; [done|].
  split; [|split; [|done]].
  - intros p x y x' y' Hin Hc Hc'. rewrite Hvs, Hc, Hc'.
    by destruct (decide (p ∈ important_parts)).
  - intros p Hcase. rewrite Hvs.
    destruct (keypoints !! p) as [c|]; [|done].
    destruct (prev !! p) as [c'|]; [|done].
    destruct (decide (p ∈ important_parts)); [|done].
    by destruct Hcase as [?|[?|?]].
Qed.

Lemma calculate_velocities_important_witness :
  ∃ velocities,
    _calculate_velocities (nose_at 3 4) (fun _ => 0)
      (mkWorld (set_prev_keypoints (Some (nose_at 0 0)) init) 0)
    = (Ret velocities, mkWorld (set_prev_keypoints (Some (nose_at 0 0)) init) 0) ∧
    dict_get velocities "nose" = Some (euclid 3 4 0 0).
Proof.
  destruct (calculate_velocities_important (nose_at 3 4) (nose_at 0 0)
              (fun _ => 0) (mkWorld (set_prev_keypoints (Some (nose_at 0 0)) init) 0)
              (wf_frame_singleton "nose" 3 4) (wf_frame_singleton "nose" 0 0)
              eq_refl) as (vs & Hrun & Hin & _).
  exists vs. split; [exact Hrun|].
  apply Hin; [|reflexivity|reflexivity].
  unfold important_parts. set_solver.
Defined.

(** C3, as stated, fails: a hip that is in both frames gets no velocity. *)
Lemma velocities_omit_unlisted_parts :
  ¬ (∀ (keypoints prev : Frame) (p : string) (c c' : Keypoint) (vs : VelocityMap),
        keypoints !! p = Some c → prev !! p = Some c' →
        calculate_velocities (Some prev) keypoints = Ret vs →
        is_Some (dict_get vs p)).
Proof.
  intros H.
  destruct (H hips_only hips_only "left_hip" (kpt 100 200) (kpt 100 200) [])
    as [v Hv]; [reflexivity | reflexivity | reflexivity | discriminate Hv].
Qed.

End Velocities.

Section Fall.

Local Open Scope R_scope.

Lemma detect_fall_eval threshold keypoints nose_y lhy rhy lay ray :
  fall_parts keypoints nose_y lhy rhy lay ray →
  let hip_y := (IZR lhy + IZR rhy) / 2 in
  let ankle_y := (IZR lay + IZR ray) / 2 in
  let body_height := Rabs (hip_y - IZR nose_y) in
  let body_width := Rabs (ankle_y - hip_y) in
  let is_horizontal := bool_decide (body_width > body_height * (15 / 10)) in
  let is_low_position := bool_decide (IZR nose_y > hip_y) in
  let fall_confidence :=
    if is_horizontal && is_low_position then 8 / 10
    else if is_horizontal then 6 / 10
    else if is_low_position then 4 / 10 else 0 in
  detected (detect_fall threshold keypoints) = bool_decide (fall_confidence > threshold) ∧
  confidence (detect_fall threshold keypoints) = fall_confidence.
Proof.
  intros ((c1 & H1 & Y1) & (c2 & H2 & Y2) & (c3 & H3 & Y3) & (c4 & H4 & Y4)
          & (c5 & H5 & Y5)).
  unfold detect_fall, detect_fall_body, required_parts, getitem, get_y.
  cbn [forallb]. rewrite H1, H2, H3, H4, H5. cbn [obind]. rewrite Y1, Y2, Y3, Y4, Y5. simpl.
  destruct (bool_decide _), (bool_decide _); done.
Qed.

Lemma fall_parts_body n h a : fall_parts (body n h a) n h h a a.
Proof. repeat split; eexists; (split; [vm_compute; reflexivity | reflexivity]). Qed.

(** C6: on a frame that has the five required parts, [_detect_fall] sets
    [detected] exactly when the confidence it computed is strictly greater
    than [fall_threshold]; under the threshold 0.6 a body that is only
    horizontal scores exactly 0.6 and is not detected, and a horizontal body
    with the head below the hips scores 0.8 and is detected. *)
Theorem detect_fall_strictly_above_threshold (keypoints : Frame)
    (nose_y lhy rhy lay ray : Z) (clk : Clock) (w : World) :
  fall_parts keypoints nose_y lhy rhy lay ray →
  let hip_y := (IZR lhy + IZR rhy) / 2 in
  let ankle_y := (IZR lay + IZR ray) / 2 in
  let body_height := Rabs (hip_y - IZR nose_y) in
  let body_width := Rabs (ankle_y - hip_y) in
  ∃ r, _detect_fall keypoints clk w = (Ret r, w) ∧
    (detected r = true ↔ confidence r > fall_threshold (self w)) ∧
    (fall_threshold (self w) = 6 / 10 →
     body_width > body_height * (15 / 10) → ¬ IZR nose_y > hip_y →
     confidence r = 6 / 10 ∧ detected r = false) ∧
    (fall_threshold (self w) = 6 / 10 →
     body_width > body_height * (15 / 10) → IZR nose_y > hip_y →
     confidence r = 8 / 10 ∧ detected r = true).
Proof.
  intros Hparts hip_y ankle_y body_height body_width.
  destruct (detect_fall_eval (fall_threshold (self w)) _ _ _ _ _ _ Hparts)
    as [Hdet Hconf].
  fold hip_y ankle_y body_height body_width in Hdet, Hconf.
  eexists. split; [reflexivity|]. rewrite Hdet, Hconf.
  split; [apply bool_decide_eq_true|].
  split; intros Hthr Hwide Hlow; rewrite Hthr.
  - rewrite (bool_decide_true _ Hwide), (bool_decide_false _ Hlow). simpl.
    split; [done|]. apply bool_decide_false. lra.
  - rewrite (bool_decide_true _ Hwide), (bool_decide_true _ Hlow). simpl.
    split; [done|]. apply bool_decide_true. lra.
Qed.

Lemma detect_fall_strictly_above_threshold_witness :
  ∃ r, _detect_fall (body 110 100 120) (fun _ => 0) (mkWorld init 0)
       = (Ret r, mkWorld init 0) ∧
       (detected r = true ↔ confidence r > 6 / 10).
Proof.
  destruct (detect_fall_strictly_above_threshold (body 110 100 120)
              110 100 100 120 120 (fun _ => 0) (mkWorld init 0)
              (fall_parts_body 110 100 120)) as (r & Hrun & Hiff & _).
  exists r. split; [exact Hrun | exact Hiff].
Defined.
End Fall.


Section Immobility.

Local Open Scope R_scope.

Lemma movement_loop_spec items prev total count :
  Forall (fun pc => wf_keypoint pc.2) items → wf_frame prev →
  movement_loop items prev total count
  = Ret (fold_left Rplus (map moved (comparable_items items prev)) total,
         (count + length (comparable_items items prev))%nat).
Proof.
  intros Hitems Hprev. revert total count.
  induction Hitems as [|[p c] items Hc _ IH]; intros total count; simpl.
  - by rewrite Nat.add_0_r.
  - destruct (prev !! p) as [c'|] eqn:Hp; simpl.
    + destruct (wf_keypoint_inv c Hc) as (x & y & ->).
      destruct (wf_keypoint_inv c' (Hprev _ _ Hp)) as (x' & y' & ->).
      rewrite displacement_kpt. simpl. rewrite IH.
      by rewrite Nat.add_succ_r.
    + apply IH.
Qed.

Lemma wf_frame_items (keypoints : Frame) :
  wf_frame keypoints → Forall (fun pc => wf_keypoint pc.2) (map_to_list keypoints).
Proof.
  intros Hk. apply Forall_forall. intros [p c] Hin.
  apply elem_of_map_to_list in Hin. by apply (Hk p c).
Qed.

Lemma movement_loop_no_comparable items prev total count :
  (∀ p c, (p, c) ∈ items → prev !! p = None) →
  movement_loop items prev total count = Ret (total, count).
Proof.
  revert total count. induction items as [|[p c] items IH]; intros total count H.
  - done.
  - simpl. rewrite (H p c) by (apply elem_of_cons; by left).
    apply IH. intros q c' Hin. apply (H q c'). apply elem_of_cons; by right.
Qed.

Lemma comparable_items_nonempty (keypoints prev : Frame) p :
  is_Some (keypoints !! p) → is_Some (prev !! p) →
  comparable_parts keypoints prev ≠ [].
Proof.
  intros [c Hc] [c' Hc'] Hnil.
  apply elem_of_map_to_list in Hc.
  unfold comparable_parts, comparable_items in Hnil.
  assert (Hin : (c, c') ∈ @nil (Keypoint * Keypoint)); [|by apply elem_of_nil in Hin].
  rewrite <- Hnil. apply list_elem_of_omap. exists (p, c). split; [done|].
  simpl. by rewrite Hc'.
Qed.

Lemma length_pos_INR {A} (l : list A) : l ≠ [] → 0 < INR (length l).
Proof. destruct l; [done|]. intros _. apply lt_0_INR. simpl. lia. Qed.

Lemma elapsed_run clk w start :
  immobility_start_time (self w) = Some start →
  elapsed_since_start clk w
  = (Ret (clk (ticks w) - start), mkWorld (self w) (S (ticks w))).
Proof.
  intros Hstart. unfold elapsed_since_start, bind, time_time, get_self.
  cbn [self]. by rewrite Hstart.
Qed.

(** C7: with a previous frame and at least one comparable part, an average
    displacement at or above [immobility_threshold] clears the timer and
    marks it inactive whatever the state was; below the threshold the timer
    runs (started at this call's reading if it was not running), and the
    result is [detected] exactly when the time elapsed since the timer
    started strictly exceeds [immobility_duration_threshold], with confidence
    0.8, and is the not-detected result otherwise. *)
Theorem detect_immobility_timer (keypoints prev : Frame) (clk : Clock) (w : World) :
  wf_frame keypoints → wf_frame prev →
  prev_keypoints (self w) = Some prev →
  (∃ p, is_Some (keypoints !! p) ∧ is_Some (prev !! p)) →
  let d := self w in
  let avg_movement := average_movement keypoints prev in
  (avg_movement >= immobility_threshold d →
   ∃ w', _detect_immobility keypoints clk w = (Ret normal_movement, w') ∧
         immobility_start_time (self w') = None ∧
         immobility_detected (self w') = false) ∧
  (avg_movement < immobility_threshold d → timer_ok d →
   ∃ r w' start now,
     _detect_immobility keypoints clk w = (Ret r, w') ∧
     immobility_start_time (self w') = Some start ∧
     immobility_detected (self w') = true ∧
     start = (if immobility_detected d
              then default 0 (immobility_start_time d) else clk (ticks w)) ∧
     now = clk (if immobility_detected d then ticks w else S (ticks w)) ∧
     (detected r = true ↔ now - start > immobility_duration_threshold d) ∧
     (detected r = true → confidence r = 8 / 10) ∧
     (detected r = false → r = normal_movement)).
Proof.
  intros Hk Hp Hprev (p & Hkp & Hpp) d avg_movement.
  pose proof (comparable_items_nonempty _ _ _ Hkp Hpp) as Hne.
  pose proof (length_pos_INR _ Hne) as Hlen.
  assert (Hcount : (0 <? length (comparable_parts keypoints prev))%nat = true).
  { apply Nat.ltb_lt. destruct (comparable_parts keypoints prev); [done|simpl; lia]. }
  assert (Hrun : movement_loop (map_to_list keypoints) prev 0 0
                 = Ret (sumR (map moved (comparable_parts keypoints prev)),
                        length (comparable_parts keypoints prev))).
  { by rewrite (movement_loop_spec _ _ _ _ (wf_frame_items _ Hk) Hp). }
  split.
  - intros Havg.
    unfold _detect_immobility, bind, get_self, lift, ret, modify.
    cbn beta. rewrite Hprev, Hrun, Hcount.
    fold (average_movement keypoints prev). fold avg_movement. fold d.
    destruct (decide (avg_movement < immobility_threshold d)) as [Hlt|_]; [lra|].
    eexists. split; [reflexivity|]. done.
  - intros Havg Htimer.
    unfold _detect_immobility, bind, get_self, lift, ret, modify.
    cbn beta. rewrite Hprev, Hrun, Hcount.
    fold (average_movement keypoints prev). fold avg_movement. fold d.
    destruct (decide (avg_movement < immobility_threshold d)) as [_|Hge]; [|lra].
    destruct (immobility_detected d) eqn:Hflag; cbn [negb]; cbn beta iota.
    + destruct (Htimer Hflag) as [start Hstart].
      rewrite (elapsed_run clk w start Hstart). cbn beta iota.
      destruct (decide (clk (ticks w) - start > immobility_duration_threshold d))
        as [Hlong|Hshort]; cbn beta iota.
      * rewrite (elapsed_run clk (mkWorld (self w) (S (ticks w))) start Hstart).
        cbn [self ticks].
        rewrite (elapsed_run clk (mkWorld (self w) (S (S (ticks w)))) start Hstart).
        cbn [self ticks].
        eexists _, _, start, _.
        split; [reflexivity|]. cbn [self detected confidence]. fold d.
        rewrite Hstart. by repeat split.
      * eexists _, _, start, _.
        split; [reflexivity|]. fold d. rewrite Hstart.
        by repeat split.
    + unfold time_time at 1. cbn beta iota. cbn [self ticks].
      set (d' := set_immobility (Some (clk (ticks w))) true (self w)).
      assert (Hstart : immobility_start_time d' = Some (clk (ticks w))) by done.
      rewrite (elapsed_run clk (mkWorld d' (S (ticks w))) _ Hstart).
      cbn [self ticks].
      destruct (decide (clk (S (ticks w)) - clk (ticks w)
                        > immobility_duration_threshold d)) as [Hlong|Hshort].
      * rewrite (elapsed_run clk (mkWorld d' (S (S (ticks w)))) _ Hstart).
        cbn [self ticks].
        rewrite (elapsed_run clk (mkWorld d' (S (S (S (ticks w))))) _ Hstart).
        cbn [self ticks].
        eexists _, _, (clk (ticks w)), _.
        split; [reflexivity|]. by repeat split.
      * eexists _, _, (clk (ticks w)), _.
        split; [reflexivity|]. by repeat split.
Qed.


Lemma euclid_same x y : euclid x y x y = 0.
Proof.
  unfold euclid. rewrite !Z.sub_diag. simpl. apply sqrt_0.
Qed.

Lemma euclid_30_40 : euclid 30 40 0 0 = 50.
Proof.
  unfold euclid. change ((30 - 0) ^ 2 + (40 - 0) ^ 2)%Z with 2500%Z.
  replace (IZR 2500) with (50 * 50) by lra. apply sqrt_square. lra.
Qed.

Lemma average_movement_nose x y x' y' :
  average_movement (nose_at x y) (nose_at x' y') = euclid x y x' y'.
Proof.
  unfold average_movement.
  change (comparable_parts (nose_at x y) (nose_at x' y'))
    with [(kpt x y, kpt x' y')].
  unfold sumR, moved. simpl. lra.
Qed.

Lemma detect_immobility_timer_witness :
  ∃ w', _detect_immobility (nose_at 30 40) (fun _ => 0)
          (mkWorld (set_prev_keypoints (Some (nose_at 0 0)) init) 0)
        = (Ret normal_movement, w') ∧
        immobility_start_time (self w') = None ∧
        immobility_detected (self w') = false.
Proof.
  assert (Hshared : ∃ p, is_Some (nose_at 30 40 !! p) ∧ is_Some (nose_at 0 0 !! p)).
  { exists "nose". split; eexists; reflexivity. }
  apply (proj1 (detect_immobility_timer (nose_at 30 40) (nose_at 0 0)
                  (fun _ => 0)
                  (mkWorld (set_prev_keypoints (Some (nose_at 0 0)) init) 0)
                  (wf_frame_singleton "nose" 30 40)
                  (wf_frame_singleton "nose" 0 0) eq_refl Hshared)).
  rewrite average_movement_nose, euclid_30_40. simpl. lra.
Defined.

(** C10: when no part of the current frame is in the previous frame,
    [_detect_immobility] returns a not-detected result and leaves the
    detector, and with it [immobility_start_time] and [immobility_detected],
    exactly as it was: a running timer is neither advanced to an alert nor
    reset. *)
Theorem detect_immobility_no_comparable_parts (keypoints prev : Frame)
    (clk : Clock) (w : World) :
  prev_keypoints (self w) = Some prev →
  (∀ p, is_Some (keypoints !! p) → prev !! p = None) →
  ∃ r, _detect_immobility keypoints clk w = (Ret r, w) ∧
       detected r = false ∧ confidence r = 0.
Proof.
  intros Hprev Hnone.
  unfold _detect_immobility, bind, get_self, lift, ret. cbn beta.
  rewrite Hprev, movement_loop_no_comparable.
  - cbn. by eexists.
  - intros p c Hin. apply Hnone. exists c. by apply elem_of_map_to_list.
Qed.

Lemma detect_immobility_no_comparable_parts_witness :
  ∃ r, _detect_immobility hips_only (fun _ => 0)
         (mkWorld (set_immobility (Some 3) true
                     (set_prev_keypoints (Some (nose_at 0 0)) init)) 0)
       = (Ret r, mkWorld (set_immobility (Some 3) true
                            (set_prev_keypoints (Some (nose_at 0 0)) init)) 0) ∧
       detected r = false ∧ confidence r = 0.
Proof.
  apply (detect_immobility_no_comparable_parts hips_only (nose_at 0 0)); [reflexivity|].
  intros p [c Hc]. unfold hips_only in Hc.
  apply lookup_singleton_Some in Hc as [<- _]. reflexivity.
Defined.

End Immobility.

Section Patterns.

Local Open Scope R_scope.

Lemma max_by_snoc {A} (key : A → R) first others a :
  max_by key first (others ++ [a])
  = if decide (key a > key (max_by key first others)) then a
    else max_by key first others.
Proof. unfold max_by. by rewrite fold_left_app. Qed.

(** Python's [max]: the first of the elements whose key is greatest. *)
Lemma max_by_spec {A} (key : A → R) (first : A) (others : list A) :
  ∃ i, (first :: others) !! i = Some (max_by key first others) ∧
       (∀ j y, (first :: others) !! j = Some y →
               key y <= key (max_by key first others)) ∧
       (∀ j y, (j < i)%nat → (first :: others) !! j = Some y →
               key y < key (max_by key first others)).
Proof.
  induction others as [|a others IH] using rev_ind.
  - exists 0%nat. split; [done|]. split.
    + intros [|j] y Hy; simplify_eq/=. lra.
    + intros j y Hj. lia.
  - destruct IH as (i & Hi & Hle & Hlt). rewrite max_by_snoc.
    destruct (decide (key a > key (max_by key first others))) as [Hgt|Hngt].
    + exists (S (length others)). split; [|split].
      * rewrite app_comm_cons.
        rewrite lookup_app_r by (simpl; lia).
        simpl. by rewrite Nat.sub_diag.
      * intros j y Hy.
        rewrite app_comm_cons in Hy.
        apply lookup_app_Some in Hy as [Hy|[Hlen Hy]].
        -- specialize (Hle j y Hy). lra.
        -- apply list_lookup_singleton_Some in Hy as [_ <-]. lra.
      * intros j y Hj Hy.
        rewrite app_comm_cons in Hy.
        rewrite lookup_app_l in Hy by (simpl; lia).
        specialize (Hle j y Hy). lra.
    + exists i. split; [|split].
      * rewrite app_comm_cons.
        apply lookup_app_l_Some, Hi.
      * intros j y Hy.
        rewrite app_comm_cons in Hy.
        apply lookup_app_Some in Hy as [Hy|[Hlen Hy]].
        -- by apply (Hle j).
        -- apply list_lookup_singleton_Some in Hy as [_ <-]. lra.
      * intros j y Hj Hy.
        rewrite app_comm_cons in Hy.
        apply lookup_lt_Some in Hi.
        rewrite lookup_app_l in Hy by lia.
        by apply (Hlt j).
Qed.

Lemma analyze_seizure_pattern_matching velocities name cfg :
  _analyze_seizure_pattern velocities cfg
  = if decide (pattern_matches velocities (name, cfg))
    then Matched (mkMatch (_calculate_pattern_consistency velocities cfg)
                          (pattern_description cfg) (pattern_description cfg)
                          (sumR (values velocities) / INR (length velocities)))
    else NotMatched (pattern_description cfg).
Proof.
  unfold _analyze_seizure_pattern, pattern_matches. simpl.
  destruct (0 <? length velocities)%nat eqn:Hlen.
  - apply Nat.ltb_lt in Hlen.
    destruct (decide (_calculate_pattern_consistency velocities cfg
                      > pattern_threshold cfg)) as [Hgt|Hle].
    + by rewrite decide_True.
    + rewrite decide_False; [done|]. by intros [_ ?].
  - apply Nat.ltb_ge in Hlen. rewrite decide_False; [done|]. intros [? _]. lia.
Qed.

Lemma detected_patterns_matching patterns velocities :
  detected_patterns patterns velocities
  = map (fun e => mkMatch (_calculate_pattern_consistency velocities e.2)
                          (pattern_description e.2) (pattern_description e.2)
                          (sumR (values velocities) / INR (length velocities)))
        (matching_patterns patterns velocities).
Proof.
  unfold matching_patterns.
  induction patterns as [|[name cfg] patterns IH]; [done|].
  simpl. rewrite (analyze_seizure_pattern_matching velocities name cfg).
  rewrite filter_cons.
  destruct (decide (pattern_matches velocities (name, cfg))); simpl; by rewrite IH.
Qed.

(** C9: when some pattern of the table matches, [_detect_seizure_patterns]
    reports a matching pattern whose consistency is the greatest among the
    matching ones, and every matching pattern declared before it in the
    table has a strictly smaller consistency: among patterns that tie, the
    one declared first wins. *)
Theorem detect_seizure_patterns_first_best (velocities : VelocityMap)
    (clk : Clock) (w : World) :
  let matching := matching_patterns (seizure_patterns (self w)) velocities in
  let consistency := _calculate_pattern_consistency velocities in
  matching ≠ [] →
  ∃ r i name cfg,
    _detect_seizure_patterns velocities clk w = (Ret r, w) ∧
    matching !! i = Some (name, cfg) ∧
    detected r = true ∧
    confidence r = consistency cfg ∧
    reason r = PatternText (pattern_description cfg) ∧
    extra r = PatternExtra (pattern_description cfg) (pattern_description cfg) ∧
    (∀ j e, matching !! j = Some e → consistency e.2 <= consistency cfg) ∧
    (∀ j e, (j < i)%nat → matching !! j = Some e →
            consistency e.2 < consistency cfg).
Proof.
  intros matching consistency Hne.
  unfold _detect_seizure_patterns, bind, get_self, ret, detect_seizure_patterns.
  cbn beta iota. rewrite detected_patterns_matching. fold matching.
  destruct matching as [|e0 rest] eqn:Hm; [done|].
  set (to_match := fun e : string * PatternConfig => _).
  simpl map.
  destruct (max_by_spec m_confidence (to_match e0) (map to_match rest))
    as (i & Hi & Hle & Hlt).
  set (best := max_by m_confidence (to_match e0) (map to_match rest)) in *.
  change (to_match e0 :: map to_match rest) with (map to_match (e0 :: rest)) in *.
  rewrite list_lookup_fmap in Hi.
  destruct ((e0 :: rest) !! i) as [[name cfg]|] eqn:Hcfg; [|done].
  simpl in Hi. injection Hi as Hbest. clearbody best. subst best.
  eexists _, i, name, cfg.
  split; [reflexivity|]. split; [done|]. simpl.
  repeat split; try done.
  - intros j e He.
    apply (Hle j (to_match e)). by rewrite list_lookup_fmap, He.
  - intros j e Hj He.
    apply (Hlt j (to_match e) Hj). by rewrite list_lookup_fmap, He.
Qed.

(** One part moving faster than the pattern's velocity threshold saturates
    the consistency. *)
Lemma consistency_saturated p v cfg :
  0 < velocity_threshold cfg → v > velocity_threshold cfg →
  _calculate_pattern_consistency [(p, v)] cfg = 1.
Proof.
  intros Hpos Hfast. unfold _calculate_pattern_consistency, values, sumR. simpl.
  rewrite decide_True by done. simpl.
  assert (Hratio : 1 <= (0 + v) / 1 / velocity_threshold cfg).
  { apply Rmult_le_reg_r with (velocity_threshold cfg); [done|].
    unfold Rdiv. rewrite !Rmult_assoc, Rinv_l by lra. lra. }
  rewrite (Rmin_right _ 1 Hratio). apply Rmin_right. lra.
Qed.

Lemma matching_patterns_fast :
  matching_patterns default_patterns [("nose", 200)] = default_patterns.
Proof.
  unfold matching_patterns, default_patterns.
  repeat (rewrite filter_cons_True;
          [|split; [simpl; lia|]; simpl;
            rewrite consistency_saturated by (simpl; lra); lra]).
  done.
Qed.

Lemma detect_seizure_patterns_first_best_witness :
  let matching := matching_patterns default_patterns [("nose", 200)] in
  let consistency := _calculate_pattern_consistency [("nose", 200)] in
  ∃ r i name cfg,
    _detect_seizure_patterns [("nose", 200)] (fun _ => 0) (mkWorld init 0)
    = (Ret r, mkWorld init 0) ∧
    matching !! i = Some (name, cfg) ∧
    detected r = true ∧
    confidence r = consistency cfg ∧
    reason r = PatternText (pattern_description cfg) ∧
    extra r = PatternExtra (pattern_description cfg) (pattern_description cfg) ∧
    (∀ j e, matching !! j = Some e → consistency e.2 <= consistency cfg) ∧
    (∀ j e, (j < i)%nat → matching !! j = Some e →
            consistency e.2 < consistency cfg).
Proof.
  apply (detect_seizure_patterns_first_best [("nose", 200)] (fun _ => 0)
           (mkWorld init 0)).
  change (seizure_patterns (self (mkWorld init 0))) with default_patterns.
  rewrite matching_patterns_fast. discriminate.
Defined.

(** All three patterns of the table match a single part moving at 200
    pixels per frame with consistency 1, and the first one declared,
    tonic_clonic, is the one reported. *)
Example tie_goes_to_first_declared :
  Forall (fun e => _calculate_pattern_consistency [("nose", 200)] e.2 = 1)
         (matching_patterns default_patterns [("nose", 200)]) ∧
  length (matching_patterns default_patterns [("nose", 200)]) = 3%nat ∧
  extra (detect_seizure_patterns default_patterns [("nose", 200)])
  = PatternExtra "Tonic-clonic seizure with rhythmic movements"
                 "Tonic-clonic seizure with rhythmic movements" ∧
  confidence (detect_seizure_patterns default_patterns [("nose", 200)]) = 1.
Proof.
  rewrite matching_patterns_fast. split; [|split; [done|]].
  - unfold default_patterns.
    repeat (apply Forall_cons; split;
            [simpl; apply consistency_saturated; simpl; lra|]).
    constructor.
  - unfold detect_seizure_patterns.
    rewrite detected_patterns_matching, matching_patterns_fast.
    unfold default_patterns, max_by. simpl.
    rewrite !consistency_saturated by (simpl; lra).
    repeat (rewrite (decide_False (P := 1 > 1)) by lra; cbn [m_confidence]).
    done.
Qed.

End Patterns.

Section Runs.

Local Open Scope R_scope.

(** [_detect_immobility], path by path. *)
Lemma detect_immobility_unfold (keypoints : Frame) (clk : Clock) (w : World) :
  _detect_immobility keypoints clk w =
  match prev_keypoints (self w) with
  | None => (Ret no_previous_frame, w)
  | Some prev =>
      match movement_loop (map_to_list keypoints) prev 0 0 with
      | Raise e => (Raise e, w)
      | Ret (total_movement, movement_count) =>
          if (0 <? movement_count)%nat then
            if decide (total_movement / INR movement_count
                       < immobility_threshold (self w)) then
              let w1 :=
                if immobility_detected (self w) then w
                else mkWorld (set_immobility (Some (clk (ticks w))) true (self w))
                             (S (ticks w)) in
              match immobility_start_time (self w1) with
              | None =>
                  (Raise (TypeError "unsupported operand type(s) for -: 'float' and 'NoneType'"),
                   mkWorld (self w1) (S (ticks w1)))
              | Some start =>
                  if decide (clk (ticks w1) - start
                             > immobility_duration_threshold (self w)) then
                    (Ret (mkResult true (8 / 10)
                            (FreezingText (clk (S (ticks w1)) - start))
                            (ImmobilityExtra (clk (S (S (ticks w1))) - start))),
                     mkWorld (self w1) (S (S (S (ticks w1)))))
                  else (Ret normal_movement, mkWorld (self w1) (S (ticks w1)))
              end
            else (Ret normal_movement,
                  mkWorld (set_immobility None false (self w)) (ticks w))
          else (Ret normal_movement, w)
      end
  end.
Proof.
  unfold _detect_immobility, elapsed_since_start, bind, get_self, lift, ret,
    modify, time_time.
  destruct w as [d n]. cbn [self ticks].
  destruct (prev_keypoints d) as [prev|]; [|done].
  destruct (movement_loop _ _ _ _) as [[total count]|e]; [|done].
  destruct (0 <? count)%nat; [|done].
  destruct (decide _); [|done].
  destruct (immobility_detected d); cbn [negb self ticks].
  - destruct (immobility_start_time d) as [start|] eqn:Hs; [|done].
    destruct (decide _); [|done].
    cbn [self ticks]. rewrite Hs. cbn [self ticks]. by rewrite Hs.
  - cbn [set_immobility immobility_start_time].
    destruct (decide _); done.
Qed.

(** The four results, given what [_detect_immobility] does. *)
Lemma detection_results_unfold (keypoints : Frame) (velocities : VelocityMap)
    (clk : Clock) (w : World) :
  detection_results keypoints velocities clk w =
  match _detect_immobility keypoints clk w with
  | (Raise e, w') => (Raise e, w')
  | (Ret immobility, w') =>
      (Ret [("fall", detect_fall (fall_threshold (self w)) keypoints);
            ("rapid_movements",
             detect_rapid_movements (rapid_movement_threshold (self w)) velocities);
            ("immobility", immobility);
            ("seizure_patterns",
             detect_seizure_patterns (seizure_patterns (self w')) velocities)],
       w')
  end.
Proof.
  unfold detection_results, _detect_fall, _detect_rapid_movements,
    _detect_seizure_patterns, bind, get_self, ret.
  by destruct (_detect_immobility keypoints clk w) as [[imm|e] w'].
Qed.

(** One call on a present frame, path by path. *)
Lemma call_unfold (clk : Clock) (keypoints : Frame) (d : SeizureDetector) :
  call clk (Some (mkData (Some keypoints))) d =
  if decide (clk 0%nat - last_alert_time d < alert_cooldown d)
  then (Ret _create_no_alert_result, d)
  else
    match calculate_velocities (prev_keypoints d) keypoints with
    | Raise e => (Raise e, d)
    | Ret velocities =>
        match detection_results keypoints velocities clk
                (mkWorld (store_history keypoints velocities d) 1) with
        | (Raise e, w) => (Raise e, self w)
        | (Ret results, w) =>
            (Ret (_determine_alert results),
             commit keypoints (clk 0%nat) (_determine_alert results) (self w))
        end
    end.
Proof.
  unfold call, analyze_movement, _calculate_velocities, bind, time_time,
    get_self, lift, modify, ret, commit, store_history.
  cbn [keypoints_entry self ticks].
  destruct (decide _); [done|].
  destruct (calculate_velocities _ _) as [velocities|e]; [|done].
  cbn [self ticks].
  destruct (detection_results _ _ _ _) as [[results|e] w]; [|done].
  by destruct (alert (_determine_alert results)).
Qed.

Lemma call_absent (clk : Clock) (d : SeizureDetector) :
  call clk None d = (Ret _create_no_alert_result, d) ∧
  call clk (Some (mkData None)) d = (Ret _create_no_alert_result, d).
Proof. done. Qed.

Lemma set_immobility_same d :
  set_immobility (immobility_start_time d) (immobility_detected d) d = d.
Proof. by destruct d. Qed.

(** Whatever it returns or raises, [_detect_immobility] writes the two
    timer fields only. *)
Lemma detect_immobility_frame keypoints clk w o w' :
  _detect_immobility keypoints clk w = (o, w') →
  ∃ start flag, self w' = set_immobility start flag (self w).
Proof.
  rewrite detect_immobility_unfold. intros H.
  assert (Hsame : ∃ start flag, self w = set_immobility start flag (self w)).
  { eexists _, _. symmetry. apply set_immobility_same. }
  repeat (case_match; simplify_eq/=); eauto.
Qed.

Lemma detect_immobility_returns keypoints clk w :
  wf_frame keypoints → wf_detector (self w) →
  ∃ r w', _detect_immobility keypoints clk w = (Ret r, w') ∧
          timer_ok (self w') ∧
          (detected r = true → confidence r = 8 / 10) ∧
          (detected r = false → confidence r = 0).
Proof.
  intros Hk [Hprev Htimer]. rewrite detect_immobility_unfold.
  destruct (prev_keypoints (self w)) as [prev|] eqn:Hp.
  - rewrite (movement_loop_spec _ _ _ _ (wf_frame_items _ Hk) (Hprev _ eq_refl)).
    destruct (0 <? _)%nat; [|by eexists _, _].
    destruct (decide _); [|by eexists _, _].
    destruct (immobility_detected (self w)) eqn:Hflag; cbn beta iota zeta.
    + destruct (Htimer Hflag) as [start Hstart]. rewrite Hstart.
      destruct (decide _); eexists _, _; (split; [reflexivity|]); simpl;
        repeat split; try done; by intros _; eexists.
    + cbn [self set_immobility immobility_start_time ticks].
      destruct (decide _); eexists _, _; (split; [reflexivity|]); simpl;
        repeat split; try done; by intros _; eexists.
  - by eexists _, _.
Qed.

Lemma calculate_velocities_returns prev keypoints :
  wf_frame keypoints → (∀ f, prev = Some f → wf_frame f) →
  ∃ velocities, calculate_velocities prev keypoints = Ret velocities.
Proof.
  intros Hk Hp. destruct prev as [f|]; [|by eexists].
  destruct (velocities_loop_spec important_parts keypoints f [] Hk (Hp f eq_refl))
    as (vs & Hvs & _).
  by exists vs.
Qed.

(** A call on a well-formed frame that passes the cooldown gate returns the
    arbiter's decision over the four results. *)
Lemma call_passes_gate (clk : Clock) (keypoints : Frame) (d : SeizureDetector) :
  wf_frame keypoints → wf_detector d →
  ¬ clk 0%nat - last_alert_time d < alert_cooldown d →
  ∃ velocities immobility w',
    calculate_velocities (prev_keypoints d) keypoints = Ret velocities ∧
    _detect_immobility keypoints clk
      (mkWorld (store_history keypoints velocities d) 1) = (Ret immobility, w') ∧
    timer_ok (self w') ∧
    (detected immobility = true → confidence immobility = 8 / 10) ∧
    (detected immobility = false → confidence immobility = 0) ∧
    let results :=
      results_of (store_history keypoints velocities d) (self w')
                 keypoints velocities immobility in
    call clk (Some (mkData (Some keypoints))) d
    = (Ret (_determine_alert results),
       commit keypoints (clk 0%nat) (_determine_alert results) (self w')).
Proof.
  intros Hk [Hprev Htimer] Hgate.
  destruct (calculate_velocities_returns (prev_keypoints d) keypoints Hk Hprev)
    as [velocities Hvel].
  destruct (detect_immobility_returns keypoints clk
              (mkWorld (store_history keypoints velocities d) 1) Hk)
    as (imm & w' & Himm & Hok & Hdet & Hnot).
  { split; [apply Hprev | apply Htimer]. }
  exists velocities, imm, w'. repeat (split; [done|]).
  intros results. rewrite call_unfold, decide_False by done.
  rewrite Hvel, detection_results_unfold, Himm. done.
Qed.

(** The invariant holds of a fresh detector and is kept by every call on a
    well-formed frame. *)
Lemma wf_detector_init : wf_detector init.
Proof. split; [intros prev [=] | intros [=]]. Qed.

Lemma call_keeps_wf_detector clk keypoints d r d' :
  wf_frame keypoints → wf_detector d →
  call clk (Some (mkData (Some keypoints))) d = (r, d') → wf_detector d'.
Proof.
  intros Hk Hd.
  destruct (decide (clk 0%nat - last_alert_time d < alert_cooldown d))
    as [Hgate|Hpass].
  - rewrite call_unfold, decide_True by done. by intros [= <- <-].
  - destruct (call_passes_gate clk keypoints d Hk Hd Hpass)
      as (vel & imm & w' & _ & _ & Hok & _ & _ & Hcall).
    rewrite Hcall. intros [= <- <-]. unfold commit.
    destruct (alert _); (split; [by intros prev [= <-] | exact Hok]).
Qed.

Lemma commit_prev_keypoints keypoints t r d :
  prev_keypoints (commit keypoints t r d) = Some keypoints.
Proof. unfold commit. by destruct (alert r). Qed.

Lemma wf_detector_alerted : wf_detector alerted_at_1000.
Proof.
  split.
  - intros prev [= <-]. apply wf_frame_singleton.
  - intros [=].
Qed.

(** C2, as amended: a call on a well-formed frame returns; when it passes
    the cooldown gate, [prev_keypoints] is the current frame afterwards;
    when the gate suppresses it, the call returns the no-alert decision and
    leaves the detector, [prev_keypoints] included, as it was. *)
Theorem analyze_movement_prev_keypoints (clk : Clock) (keypoints : Frame)
    (d : SeizureDetector) :
  wf_frame keypoints → wf_detector d →
  ∃ r d',
    call clk (Some (mkData (Some keypoints))) d = (Ret r, d') ∧
    (¬ clk 0%nat - last_alert_time d < alert_cooldown d →
     prev_keypoints d' = Some keypoints) ∧
    (clk 0%nat - last_alert_time d < alert_cooldown d →
     r = _create_no_alert_result ∧ d' = d).
Proof.
  intros Hk Hd.
  destruct (decide (clk 0%nat - last_alert_time d < alert_cooldown d))
    as [Hgate|Hpass].
  - exists _create_no_alert_result, d.
    rewrite call_unfold, decide_True by done. by repeat split.
  - destruct (call_passes_gate clk keypoints d Hk Hd Hpass)
      as (vel & imm & w' & _ & _ & _ & _ & _ & Hcall).
    eexists _, _. split; [exact Hcall|]. split; [|done].
    intros _. apply commit_prev_keypoints.
Qed.

Lemma analyze_movement_prev_keypoints_witness :
  ∃ r d',
    call (fun _ => 1002) (Some (mkData (Some (nose_at 3 4)))) alerted_at_1000
    = (Ret r, d') ∧
    r = _create_no_alert_result ∧ d' = alerted_at_1000.
Proof.
  destruct (analyze_movement_prev_keypoints (fun _ => 1002) (nose_at 3 4)
              alerted_at_1000 (wf_frame_singleton "nose" 3 4)
              wf_detector_alerted) as (r & d' & Hcall & _ & Hgate).
  exists r, d'. split; [exact Hcall|]. apply Hgate. simpl. lra.
Defined.

(** C2, as stated, fails: the call below comes two seconds after an alert,
    is suppressed by the cooldown gate, and returns with [prev_keypoints]
    still holding the earlier frame. *)
Lemma cooldown_keeps_prev_keypoints :
  ¬ (∀ (clk : Clock) (keypoints : Frame) (d : SeizureDetector) r d',
        call clk (Some (mkData (Some keypoints))) d = (Ret r, d') →
        prev_keypoints d' = Some keypoints).
Proof.
  intros H.
  specialize (H (fun _ => 1002) (nose_at 3 4) alerted_at_1000
                _create_no_alert_result alerted_at_1000).
  rewrite call_unfold, decide_True in H by (simpl; lra).
  specialize (H eq_refl).
  change (Some (nose_at 0 0) = Some (nose_at 3 4)) in H.
  apply (f_equal (fun o : option Frame => o ≫= (.!! "nose"))) in H.
  vm_compute in H. discriminate H.
Qed.

End Runs.

Section Confidence.

Local Open Scope R_scope.

Lemma detect_fall_confidence threshold keypoints :
  let c := confidence (detect_fall threshold keypoints) in
  c = 0 ∨ c = 4 / 10 ∨ c = 6 / 10 ∨ c = 8 / 10.
Proof.
  unfold detect_fall.
  destruct (detect_fall_body threshold keypoints) as [r|e] eqn:H; [|simpl; auto].
  unfold detect_fall_body in H.
  destruct (negb _); [injection H as <-; simpl; auto|].
  repeat match type of H with
         | obind ?m _ = Ret _ =>
             destruct m; cbn [obind] in H; [|discriminate H]
         end.
  destruct (bool_decide _), (bool_decide _); cbn [andb] in H;
    injection H as <-; cbn [confidence]; auto.
Qed.

Lemma detect_rapid_confidence threshold velocities :
  let r := detect_rapid_movements threshold velocities in
  unit_interval (confidence r) ∧ (detected r = false → confidence r = 0).
Proof.
  unfold detect_rapid_movements, unit_interval.
  destruct (rapid_loop threshold velocities) as [|m ms] eqn:Hloop;
    cbn [confidence detected length].
  - split; [lra|done].
  - split; [|done].
    assert (Hn : 1 <= INR (S (length ms))).
    { rewrite S_INR. pose proof (pos_INR (length ms)). lra. }
    unfold Rmin. destruct (Rle_dec _ _); lra.
Qed.

Lemma detect_immobility_confidence keypoints clk w r w' :
  _detect_immobility keypoints clk w = (Ret r, w') →
  unit_interval (confidence r) ∧ (detected r = false → confidence r = 0).
Proof.
  rewrite detect_immobility_unfold. unfold unit_interval. intros H.
  repeat (case_match; simplify_eq); cbn [confidence detected normal_movement
    no_previous_frame]; (split; [lra|done]).
Qed.

Lemma displacement_nonneg c c' v : displacement c c' = Ret v → 0 <= v.
Proof.
  unfold displacement, get_x, get_y.
  destruct (kx c), (ky c), (kx c'), (ky c'); try discriminate.
  intros [= <-]. apply sqrt_pos.
Qed.

Lemma dict_set_nonneg d k v :
  nonneg_velocities d → 0 <= v → nonneg_velocities (dict_set d k v).
Proof.
  unfold nonneg_velocities. intros Hd Hv.
  induction d as [|[k' v'] d IH]; simpl.
  - constructor; [exact Hv | constructor].
  - apply Forall_cons in Hd as [Hv' Hd].
    destruct (decide (k' = k)); constructor; auto.
Qed.

Lemma velocities_loop_nonneg parts keypoints prev acc vs :
  nonneg_velocities acc →
  velocities_loop parts keypoints prev acc = Ret vs → nonneg_velocities vs.
Proof.
  revert acc. induction parts as [|p parts IH]; intros acc Hacc; simpl.
  - by intros [= <-].
  - destruct (keypoints !! p) as [c|]; [|by apply IH].
    destruct (prev !! p) as [c'|]; [|by apply IH].
    destruct (displacement c c') as [v|e] eqn:Hv; [|discriminate].
    simpl. apply IH, dict_set_nonneg; [done|].
    by apply (displacement_nonneg c c').
Qed.

Lemma calculate_velocities_nonneg prev keypoints vs :
  calculate_velocities prev keypoints = Ret vs → nonneg_velocities vs.
Proof.
  destruct prev as [f|]; unfold calculate_velocities.
  - apply velocities_loop_nonneg. constructor.
  - intros [= <-]. constructor.
Qed.

Lemma fold_plus_nonneg (l : list R) (a : R) :
  Forall (Rle 0) l → 0 <= a → 0 <= fold_left Rplus l a.
Proof.
  intros Hl. revert a. induction Hl as [|x l Hx _ IH]; intros a Ha; simpl.
  - done.
  - apply IH. lra.
Qed.

Lemma consistency_unit_interval velocities cfg :
  nonneg_velocities velocities → 0 < velocity_threshold cfg →
  unit_interval (_calculate_pattern_consistency velocities cfg).
Proof.
  intros Hv Hthr. unfold _calculate_pattern_consistency, unit_interval.
  destruct (length velocities =? 0)%nat eqn:Hlen; [lra|].
  apply Nat.eqb_neq in Hlen.
  assert (Hn : 0 < INR (length velocities)) by (apply lt_0_INR; lia).
  split; [|apply Rmin_r].
  apply Rmin_glb; [|lra].
  assert (Hsum : 0 <= sumR (values velocities)).
  { apply fold_plus_nonneg; [|lra]. unfold values.
    apply Forall_fmap. eapply Forall_impl; [exact Hv|]. done. }
  assert (Hratio : 0 <= INR (count_above (velocity_threshold cfg) (values velocities))
                        / INR (length velocities)).
  { apply Rle_mult_inv_pos; [apply pos_INR | done]. }
  assert (Havg : 0 <= sumR (values velocities) / INR (length velocities)
                      / velocity_threshold cfg).
  { apply Rle_mult_inv_pos; [|done]. by apply Rle_mult_inv_pos. }
  pose proof (Rmin_glb _ 1 0 Havg ltac:(lra)). lra.
Qed.

Lemma max_by_elem {A} (key : A → R) first others :
  max_by key first others ∈ first :: others.
Proof.
  destruct (max_by_spec key first others) as (i & Hi & _).
  by apply list_elem_of_lookup_2 in Hi.
Qed.

Lemma detected_patterns_unit_interval patterns velocities :
  nonneg_velocities velocities →
  Forall (fun e => 0 < velocity_threshold e.2) patterns →
  Forall (fun m => unit_interval (m_confidence m))
         (detected_patterns patterns velocities).
Proof.
  intros Hv Hp. induction Hp as [|[name cfg] patterns Hcfg _ IH]; simpl.
  - constructor.
  - rewrite (analyze_seizure_pattern_matching velocities name cfg).
    destruct (decide (pattern_matches velocities (name, cfg))); [|done].
    constructor; [|done]. by apply consistency_unit_interval.
Qed.

Lemma detect_seizure_confidence patterns velocities :
  nonneg_velocities velocities →
  Forall (fun e => 0 < velocity_threshold e.2) patterns →
  let r := detect_seizure_patterns patterns velocities in
  unit_interval (confidence r) ∧ (detected r = false → confidence r = 0).
Proof.
  intros Hv Hp. unfold detect_seizure_patterns.
  pose proof (detected_patterns_unit_interval patterns velocities Hv Hp) as Hall.
  destruct (detected_patterns patterns velocities) as [|first others];
    cbn [confidence detected].
  - split; [unfold unit_interval; lra | done].
  - split; [|done].
    rewrite Forall_forall in Hall. apply Hall, max_by_elem.
Qed.

Lemma alerts_unit_interval results :
  Forall (fun nr => unit_interval (confidence nr.2)) results →
  Forall (fun a => unit_interval (e_confidence a)) (alerts results).
Proof.
  induction 1 as [|[name r] results Hr _ IH]; simpl; [constructor|].
  destruct (detected r); [by constructor | done].
Qed.

Lemma determine_alert_confidence results :
  Forall (fun nr => unit_interval (confidence nr.2)) results →
  let r := _determine_alert results in
  unit_interval (alert_confidence r) ∧ (alert r = false → alert_confidence r = 0).
Proof.
  intros Hall. unfold _determine_alert.
  pose proof (alerts_unit_interval results Hall) as Hal.
  destruct (alerts results) as [|first others]; cbn [alert alert_confidence].
  - split; [unfold unit_interval; simpl; lra | done].
  - split; [|done].
    rewrite Forall_forall in Hal. apply Hal, max_by_elem.
Qed.

Lemma detection_results_ok clk keypoints d velocities results w' :
  Forall (fun e => 0 < velocity_threshold e.2) (seizure_patterns d) →
  calculate_velocities (prev_keypoints d) keypoints = Ret velocities →
  detection_results keypoints velocities clk
    (mkWorld (store_history keypoints velocities d) 1) = (Ret results, w') →
  Forall result_ok results.
Proof.
  intros Hthr Hvel. rewrite detection_results_unfold.
  destruct (_detect_immobility _ _ _) as [[imm|e] w1] eqn:Himm; [|done].
  intros [= <- <-].
  destruct (detect_immobility_frame _ _ _ _ _ Himm) as (s & f & Hself).
  rewrite Hself. cbn [self set_immobility store_history set_history
    seizure_patterns fall_threshold rapid_movement_threshold].
  apply calculate_velocities_nonneg in Hvel.
  pose proof (detect_fall_confidence (fall_threshold d) keypoints) as Hfall.
  pose proof (detect_rapid_confidence (rapid_movement_threshold d) velocities)
    as [Hrapid Hrapid0].
  pose proof (detect_immobility_confidence _ _ _ _ _ Himm) as [Himmob Himmob0].
  pose proof (detect_seizure_confidence (seizure_patterns d) velocities Hvel Hthr)
    as [Hseiz Hseiz0].
  cbv zeta in Hfall.
  repeat (apply Forall_cons; split); [| | | |constructor];
    unfold result_ok; cbn [fst snd]; (split; [|split]); try done.
  unfold unit_interval. destruct Hfall as [-> | [-> | [-> | ->]]]; lra.
Qed.

Lemma call_returns clk keypoints d :
  wf_frame keypoints → wf_detector d →
  ∃ r d', call clk (Some (mkData (Some keypoints))) d = (Ret r, d').
Proof.
  intros Hk Hd.
  destruct (decide (clk 0%nat - last_alert_time d < alert_cooldown d))
    as [Hgate|Hpass].
  - eexists _, _. by rewrite call_unfold, decide_True.
  - destruct (call_passes_gate clk keypoints d Hk Hd Hpass)
      as (vel & imm & w' & _ & _ & _ & _ & _ & Hcall).
    by eexists _, _.
Qed.

Lemma fall_lying_flat :
  confidence (detect_fall (6 / 10) (body 100 100 110)) = 6 / 10 ∧
  detected (detect_fall (6 / 10) (body 100 100 110)) = false.
Proof.
  destruct (detect_fall_eval (6 / 10) _ _ _ _ _ _ (fall_parts_body 100 100 110))
    as [Hdet Hconf].
  rewrite Hdet, Hconf.
  rewrite (bool_decide_true (Rabs _ > _))
    by (unfold Rabs; repeat destruct (Rcase_abs _); lra).
  rewrite (bool_decide_false (IZR 100 > _)) by lra.
  cbn [andb]. split; [done|]. apply bool_decide_false. lra.
Qed.

Lemma fall_collapsed :
  confidence (detect_fall (6 / 10) (body 110 100 120)) = 8 / 10 ∧
  detected (detect_fall (6 / 10) (body 110 100 120)) = true.
Proof.
  destruct (detect_fall_eval (6 / 10) _ _ _ _ _ _ (fall_parts_body 110 100 120))
    as [Hdet Hconf].
  rewrite Hdet, Hconf.
  rewrite (bool_decide_true (Rabs _ > _))
    by (unfold Rabs; repeat destruct (Rcase_abs _); lra).
  rewrite (bool_decide_true (IZR 110 > _)) by lra.
  cbn [andb]. split; [done|]. apply bool_decide_true. lra.
Qed.

(** C1, as amended: when the velocity thresholds of the pattern table are
    positive, a call on a well-formed frame returns; every decision a call
    returns, on any input, has its confidence in [0,1], and confidence 0
    when [alert] is false; each of the four results the analyzers produce
    has its confidence in [0,1]; a rapid-movement, immobility or
    seizure-pattern result that is not detected has confidence 0; the fall
    result carries the posture score 0, 0.4, 0.6 or 0.8 whether it is
    detected or not. *)
Theorem confidences_in_unit_interval (clk : Clock) (keypoints : Frame)
    (d : SeizureDetector) :
  Forall (fun e => 0 < velocity_threshold e.2) (seizure_patterns d) →
  (wf_frame keypoints → wf_detector d →
   ∃ r d', call clk (Some (mkData (Some keypoints))) d = (Ret r, d')) ∧
  (∀ keypoints_data r d',
     call clk keypoints_data d = (Ret r, d') →
     unit_interval (alert_confidence r) ∧
     (alert r = false → alert_confidence r = 0)) ∧
  (∀ velocities results w',
     calculate_velocities (prev_keypoints d) keypoints = Ret velocities →
     detection_results keypoints velocities clk
       (mkWorld (store_history keypoints velocities d) 1) = (Ret results, w') →
     Forall result_ok results).
Proof.
  intros Hthr. split; [apply call_returns|]. split.
  - intros [[[frame|]]|] r d'.
    2,3: intros [= <- <-]; unfold unit_interval; simpl; (split; [lra|done]).
    rewrite call_unfold.
    destruct (decide _) as [_|_].
    { intros [= <- <-]. unfold unit_interval. simpl. split; [lra|done]. }
    destruct (calculate_velocities _ _) as [vel|e] eqn:Hvel; [|done].
    destruct (detection_results _ _ _ _) as [[results|e] w'] eqn:Hres; [|done].
    intros [= <- <-]. apply determine_alert_confidence.
    eapply Forall_impl; [exact (detection_results_ok _ _ _ _ _ _ Hthr Hvel Hres)|].
    by intros nr [? _].
  - intros vel results w'. by apply detection_results_ok.
Qed.

Lemma positive_default_thresholds :
  Forall (fun e => 0 < velocity_threshold e.2) (seizure_patterns init).
Proof. repeat (constructor; [simpl; lra|]). constructor. Qed.

Lemma confidences_in_unit_interval_witness :
  Forall result_ok
    [("fall", detect_fall (6 / 10) (body 100 100 110));
     ("rapid_movements", detect_rapid_movements 50 []);
     ("immobility", no_previous_frame);
     ("seizure_patterns", detect_seizure_patterns default_patterns [])].
Proof.
  destruct (confidences_in_unit_interval (fun _ => 1000) (body 100 100 110) init
              positive_default_thresholds) as (_ & _ & Hresults).
  exact (Hresults [] _ _ eq_refl eq_refl).
Defined.

(** C1, as stated, fails: for a body lying flat with the head level with the
    hips the fall result is not detected and yet has confidence 0.6. *)
Lemma fall_confidence_without_detection :
  ¬ (∀ (clk : Clock) (keypoints : Frame) (d : SeizureDetector)
       velocities results w' name r,
        calculate_velocities (prev_keypoints d) keypoints = Ret velocities →
        detection_results keypoints velocities clk
          (mkWorld (store_history keypoints velocities d) 1) = (Ret results, w') →
        (name, r) ∈ results →
        unit_interval (confidence r) ∧ (detected r = false → confidence r = 0)).
Proof.
  intros H.
  destruct (H (fun _ => 1000) (body 100 100 110) init [] _ _ "fall"
              (detect_fall (6 / 10) (body 100 100 110)) eq_refl eq_refl)
    as [_ Hzero].
  { apply elem_of_cons. by left. }
  destruct fall_lying_flat as [Hconf Hdet].
  rewrite Hconf in Hzero. specialize (Hzero Hdet). lra.
Qed.

End Confidence.

Section Cooldown.

Local Open Scope R_scope.

Lemma detection_results_frame keypoints velocities clk w o w' :
  detection_results keypoints velocities clk w = (o, w') →
  ∃ start flag, self w' = set_immobility start flag (self w).
Proof.
  rewrite detection_results_unfold.
  destruct (_detect_immobility keypoints clk w) as [[imm|e] w1] eqn:Himm;
    intros [= <- <-]; by apply (detect_immobility_frame _ _ _ _ _ Himm).
Qed.

(** A call suppressed by the gate, or made without a frame, changes nothing. *)
Lemma call_gated clk keypoints_data d :
  clk 0%nat - last_alert_time d < alert_cooldown d →
  call clk keypoints_data d = (Ret _create_no_alert_result, d).
Proof.
  intros Hgate. destruct keypoints_data as [[[keypoints|]]|]; try done.
  by rewrite call_unfold, decide_True.
Qed.

(** What any call, returning or raising, does to the cooldown clock. *)
Lemma call_alert_fields clk keypoints_data d o d' :
  call clk keypoints_data d = (o, d') →
  alert_cooldown d' = alert_cooldown d ∧
  ((last_alert_time d' = last_alert_time d ∧ ∀ r, o = Ret r → alert r = false) ∨
   (∃ r, o = Ret r ∧ alert r = true ∧ last_alert_time d' = clk 0%nat ∧
         ¬ clk 0%nat - last_alert_time d < alert_cooldown d)).
Proof.
  destruct keypoints_data as [[[keypoints|]]|].
  2,3: intros [= <- <-]; split; [done|]; left; split; [done|];
       by intros r [= <-].
  rewrite call_unfold.
  destruct (decide _) as [Hgate|Hpass].
  { intros [= <- <-]. split; [done|]. left. split; [done|]. by intros r [= <-]. }
  destruct (calculate_velocities _ _) as [vel|e].
  2: { intros [= <- <-]. split; [done|]. left. by split. }
  destruct (detection_results _ _ _ _) as [[results|e] w] eqn:Hres.
  - apply detection_results_frame in Hres as (s & f & Hself).
    intros [= <- <-]. rewrite Hself. unfold commit.
    destruct (alert (_determine_alert results)) eqn:Halert.
    + split; [done|]. right. by exists (_determine_alert results).
    + split; [done|]. left. split; [done|]. by intros r [= <-].
  - apply detection_results_frame in Hres as (s & f & Hself).
    intros [= <- <-]. rewrite Hself. split; [done|]. left. by split.
Qed.

Lemma feed_cons clk keypoints_data rest d :
  (feed ((clk, keypoints_data) :: rest) d).1
  = (call clk keypoints_data d).1 :: (feed rest (call clk keypoints_data d).2).1.
Proof.
  cbn [feed]. destruct (call clk keypoints_data d) as [r d']. cbn [fst snd].
  by destruct (feed rest d') as [rs d''].
Qed.

(** While the last alert is at [T] or later, no call sampled before
    [T + alert_cooldown] gets past the gate. *)
Lemma feed_suppressed calls d T j clk keypoints_data :
  0 <= alert_cooldown d → T <= last_alert_time d →
  calls !! j = Some (clk, keypoints_data) →
  clk 0%nat < T + alert_cooldown d →
  (feed calls d).1 !! j = Some (Ret _create_no_alert_result).
Proof.
  revert d j. induction calls as [|[clk0 data0] calls IH]; intros d j Hcd HT Hj Ht.
  - done.
  - rewrite feed_cons. destruct j as [|j]; simpl in Hj.
    + injection Hj as -> ->. rewrite call_gated by lra. done.
    + destruct (call clk0 data0 d) as [o d'] eqn:Hcall. simpl.
      destruct (call_alert_fields _ _ _ _ _ Hcall) as [Hcd' Hlat].
      apply IH; rewrite ?Hcd'; try done.
      destruct Hlat as [[-> _]|(r & _ & _ & -> & Hpass)]; lra.
Qed.

Lemma alerts_nil_iff results :
  alerts results = [] ↔ Forall (fun nr => detected nr.2 = false) results.
Proof.
  induction results as [|[name r] results IH]; simpl.
  - split; [constructor|done].
  - destruct (detected r) eqn:Hr.
    + split; [done|]. intros H. apply Forall_cons in H as [H _].
      simpl in H. congruence.
    + rewrite IH. split.
      * intros H. by constructor.
      * intros H. by apply Forall_cons in H as [_ H].
Qed.

Lemma determine_alert_iff results :
  alert (_determine_alert results) = true
  ↔ Exists (fun nr => detected nr.2 = true) results.
Proof.
  unfold _determine_alert.
  destruct (alerts results) as [|first others] eqn:Hal; cbn [alert].
  - apply alerts_nil_iff in Hal. split; [done|].
    intros Hex. apply Exists_exists in Hex as (nr & Hin & Hdet).
    rewrite Forall_forall in Hal. specialize (Hal nr Hin). congruence.
  - split; [|done]. intros _.
    destruct (decide (Exists (fun nr => detected nr.2 = true) results))
      as [Hex|Hnex]; [done|].
    apply not_Exists_Forall in Hnex; [|intros nr; apply _].
    assert (Hnil : alerts results = []).
    { apply alerts_nil_iff. eapply Forall_impl; [exact Hnex|].
      intros nr Hnr. simpl in Hnr. by destruct (detected nr.2). }
    congruence.
Qed.

(** C5: in any stream of calls on one detector, once a call sampled at [T]
    has returned an alert, every later call whose sample lies strictly
    between [T] and [T + alert_cooldown] returns the no-alert decision; and
    a call on a well-formed frame whose sample is at or after
    [last_alert_time + alert_cooldown] is not held back by the gate: it
    returns the arbiter's decision, an alert exactly when one of the four
    analyzers detected, and an alert moves [last_alert_time] to the sample. *)
Theorem cooldown_between_alerts (calls : list (Clock * option KeypointsData))
    (d : SeizureDetector) :
  (∀ i j clk_i data_i r_i clk_j data_j,
     calls !! i = Some (clk_i, data_i) →
     (feed calls d).1 !! i = Some (Ret r_i) → alert r_i = true →
     (i < j)%nat → calls !! j = Some (clk_j, data_j) →
     clk_i 0%nat < clk_j 0%nat < clk_i 0%nat + alert_cooldown d →
     (feed calls d).1 !! j = Some (Ret _create_no_alert_result)) ∧
  (∀ clk keypoints,
     wf_frame keypoints → wf_detector d →
     clk 0%nat >= last_alert_time d + alert_cooldown d →
     ∃ velocities results w' d',
       calculate_velocities (prev_keypoints d) keypoints = Ret velocities ∧
       detection_results keypoints velocities clk
         (mkWorld (store_history keypoints velocities d) 1) = (Ret results, w') ∧
       call clk (Some (mkData (Some keypoints))) d
       = (Ret (_determine_alert results), d') ∧
       (alert (_determine_alert results) = true
        ↔ Exists (fun nr => detected nr.2 = true) results) ∧
       (alert (_determine_alert results) = true →
        last_alert_time d' = clk 0%nat)).
Proof.
  split.
  - revert d. induction calls as [|[clk0 data0] calls IH];
      intros d i j clk_i data_i r_i clk_j data_j Hi Hri Halert Hij Hj Ht; [done|].
    rewrite feed_cons in Hri |- *.
    destruct (call clk0 data0 d) as [o d'] eqn:Hcall. cbn [fst snd] in *.
    destruct (call_alert_fields _ _ _ _ _ Hcall) as [Hcd Hlat].
    destruct j as [|j]; [lia|]. simpl in Hj.
    destruct i as [|i]; simpl in Hi, Hri.
    + injection Hi as -> ->. injection Hri as ->.
      destruct Hlat as [[_ Hno]|(r & [= <-] & _ & Hlat & _)].
      { specialize (Hno r_i eq_refl). congruence. }
      simpl. apply (feed_suppressed calls d' (clk_i 0%nat) j clk_j data_j);
        rewrite ?Hcd; try done; lra.
    + simpl. apply (IH d' i j clk_i data_i r_i clk_j data_j); try done; try lia.
      by rewrite Hcd.
  - intros clk keypoints Hk Hd Ht.
    assert (Hpass : ¬ clk 0%nat - last_alert_time d < alert_cooldown d) by lra.
    destruct (call_passes_gate clk keypoints d Hk Hd Hpass)
      as (vel & imm & w' & Hvel & Himm & _ & _ & _ & Hcall).
    set (results := results_of (store_history keypoints vel d) (self w')
                               keypoints vel imm) in *.
    exists vel, results, w',
      (commit keypoints (clk 0%nat) (_determine_alert results) (self w')).
    split; [exact Hvel|].
    split; [by rewrite detection_results_unfold, Himm|].
    split; [exact Hcall|]. split; [apply determine_alert_iff|].
    intros Halert. unfold commit. by rewrite Halert.
Qed.

Lemma first_call_alerts :
  ∃ r d', call (fun _ => 1000) collapsed init = (Ret r, d') ∧
          alert r = true ∧ alert_type r = "fall" ∧ alert_confidence r = 8 / 10 ∧
          last_alert_time d' = 1000 ∧ alert_cooldown d' = 5 ∧
          prev_keypoints d' = Some (body 110 100 120) ∧
          immobility_detected d' = false ∧ fall_threshold d' = 6 / 10.
Proof.
  unfold collapsed. rewrite call_unfold, decide_False by (simpl; lra).
  change (calculate_velocities (prev_keypoints init) (body 110 100 120))
    with (@Ret VelocityMap []).
  cbn beta iota.
  rewrite detection_results_unfold, detect_immobility_unfold.
  cbn [self store_history set_history prev_keypoints init fall_threshold
       rapid_movement_threshold seizure_patterns].
  destruct fall_collapsed as [Hconf Hdet].
  eexists _, _. split; [reflexivity|].
  unfold _determine_alert, commit. cbn [alerts]. rewrite Hdet.
  cbn [detect_rapid_movements rapid_loop detected no_previous_frame
       detect_seizure_patterns detected_patterns default_patterns
       _analyze_seizure_pattern length Nat.ltb Nat.leb alerts max_by fold_left
       alert alert_type alert_confidence e_type e_confidence confidence].
  rewrite Hconf. done.
Qed.

Lemma wf_frame_body n h a : wf_frame (body n h a).
Proof.
  unfold wf_frame, body. apply map_Forall_to_list.
  rewrite map_to_list_to_map.
  - repeat (apply Forall_cons; split; [split; by eexists|]). constructor.
  - apply (bool_decide_unpack _). by vm_compute.
Qed.

Lemma cooldown_between_alerts_witness :
  ∃ r0 d1,
    call (fun _ => 1000) collapsed init = (Ret r0, d1) ∧ alert r0 = true ∧
    (feed alert_stream init).1 !! 1%nat = Some (Ret _create_no_alert_result) ∧
    ∃ r2 d2,
      call (fun _ => 1005) collapsed d1 = (Ret r2, d2) ∧ alert r2 = true ∧
      last_alert_time d2 = 1005.
Proof.
  destruct first_call_alerts
    as (r0 & d1 & Hcall & Halert & _ & _ & Hlat & Hcd & Hprev & Hflag & Hthr).
  exists r0, d1. split; [exact Hcall|]. split; [exact Halert|]. split.
  - apply (proj1 (cooldown_between_alerts alert_stream init) 0%nat 1%nat
             (fun _ => 1000) collapsed r0 (fun _ => 1002) collapsed);
      [reflexivity | | exact Halert | lia | reflexivity | simpl; lra].
    unfold alert_stream. rewrite feed_cons, Hcall. reflexivity.
  - assert (Hwf : wf_detector d1).
    { split.
      - intros prev Hp. rewrite Hprev in Hp. injection Hp as <-.
        apply wf_frame_body.
      - intros Hrun. congruence. }
    destruct (proj2 (cooldown_between_alerts [] d1) (fun _ => 1005)
                (body 110 100 120) (wf_frame_body _ _ _) Hwf)
      as (vel & results & w' & d2 & _ & Hres & Hcall2 & Hiff & Hlat2).
    { rewrite Hlat, Hcd. lra. }
    assert (Hfires : alert (_determine_alert results) = true).
    { apply Hiff. rewrite detection_results_unfold in Hres.
      destruct (_detect_immobility _ _ _) as [[imm|e] w1]; [|discriminate Hres].
      injection Hres as <- _. apply Exists_cons. left.
      cbn [snd self store_history set_history fall_threshold]. rewrite Hthr.
      apply fall_collapsed. }
    exists (_determine_alert results), d2.
    split; [exact Hcall2|]. split; [exact Hfires | exact (Hlat2 Hfires)].
Defined.

End Cooldown.

Section Clock.

Local Open Scope R_scope.

(** The clock readings [_detect_immobility] takes are the four that follow
    the readings taken before it. *)
Lemma detect_immobility_clock keypoints (clk1 clk2 : Clock) w :
  (∀ n, (ticks w <= n < ticks w + 4)%nat → clk1 n = clk2 n) →
  _detect_immobility keypoints clk1 w = _detect_immobility keypoints clk2 w.
Proof.
  intros Hclk. rewrite !detect_immobility_unfold.
  destruct w as [d n]. cbn [self ticks] in *.
  destruct (prev_keypoints d); [|done].
  destruct (movement_loop _ _ _ _) as [[total count]|]; [|done].
  destruct (0 <? count)%nat; [|done].
  destruct (decide _); [|done].
  destruct (immobility_detected d); cbn [self ticks set_immobility
    immobility_start_time];
    rewrite ?(Hclk n), ?(Hclk (S n)), ?(Hclk (S (S n))), ?(Hclk (S (S (S n))))
      by lia; done.
Qed.

(** C8, as amended: the decision and the state update of a call are a
    function of the frame, the prior state and the first five clock readings
    of the call: the reading [analyze_movement] takes for the cooldown check
    and [last_alert_time], and the up to four further readings
    [_detect_immobility] takes. *)
Theorem call_deterministic_in_five_readings (clk1 clk2 : Clock)
    (keypoints_data : option KeypointsData) (d : SeizureDetector) :
  (∀ n, (n < 5)%nat → clk1 n = clk2 n) →
  call clk1 keypoints_data d = call clk2 keypoints_data d.
Proof.
  intros Hclk. destruct keypoints_data as [[[keypoints|]]|]; try done.
  rewrite !call_unfold.
  rewrite (Hclk 0%nat) by lia.
  destruct (decide _); [done|].
  destruct (calculate_velocities _ _) as [vel|]; [|done].
  rewrite !detection_results_unfold.
  rewrite (detect_immobility_clock keypoints clk1 clk2); [done|].
  intros k Hk. apply Hclk. simpl in Hk. lia.
Qed.

Lemma call_deterministic_in_five_readings_witness :
  call (fun _ => 1000) collapsed init = call drifting_clock collapsed init.
Proof.
  apply (call_deterministic_in_five_readings (fun _ => 1000) drifting_clock
           collapsed init).
  intros n Hn. unfold drifting_clock.
  by rewrite (proj2 (Nat.ltb_lt n 5) Hn).
Defined.

Lemma consistency_at_rest p cfg :
  0 < velocity_threshold cfg →
  _calculate_pattern_consistency [(p, 0)] cfg = 0.
Proof.
  intros Hthr. unfold _calculate_pattern_consistency, values, sumR. simpl.
  rewrite decide_False by lra. simpl.
  replace ((0 + 0) / 1 / velocity_threshold cfg) with 0
    by (unfold Rdiv; rewrite Rplus_0_l, !Rmult_0_l; reflexivity).
  rewrite (Rmin_left 0 1) by lra.
  replace (0 / 1 * (6 / 10) + 0 * (4 / 10)) with 0 by lra.
  apply Rmin_left. lra.
Qed.

Lemma wf_detector_frozen : wf_detector frozen_since_990.
Proof.
  split.
  - intros prev [= <-]. apply wf_frame_singleton.
  - intros _. by eexists.
Qed.

(** On the frozen subject a call sampled at 1000 alerts exactly when the
    second reading of the clock is more than ten seconds after 990. *)
Lemma frozen_call_alert (clk : Clock) :
  clk 0%nat = 1000 →
  ∃ r d', call clk still frozen_since_990 = (Ret r, d') ∧
          (alert r = true ↔ clk 1%nat - 990 > 10).
Proof.
  intros Hclk.
  destruct (call_passes_gate clk (nose_at 0 0) frozen_since_990
              (wf_frame_singleton "nose" 0 0) wf_detector_frozen)
    as (vel & imm & w' & Hvel & Himm & _ & _ & _ & Hcall).
  { rewrite Hclk. simpl. lra. }
  change (calculate_velocities (prev_keypoints frozen_since_990) (nose_at 0 0))
    with (@Ret VelocityMap [("nose", euclid 0 0 0 0)]) in Hvel.
  injection Hvel as <-.
  rewrite detect_immobility_unfold in Himm.
  change (prev_keypoints (self _)) with (Some (nose_at 0 0)) in Himm.
  cbv beta iota in Himm.
  change (movement_loop _ _ _ _) with (Ret (0 + euclid 0 0 0 0, 1%nat)) in Himm.
  cbv beta iota in Himm.
  cbn [Nat.ltb Nat.leb] in Himm. rewrite euclid_same in *.
  rewrite decide_True in Himm by (simpl; lra).
  cbn [self store_history set_history immobility_detected immobility_start_time
       immobility_duration_threshold frozen_since_990 set_immobility
       set_prev_keypoints init ticks] in Himm.
  eexists _, _. split; [exact Hcall|].
  rewrite determine_alert_iff. unfold results_of.
  rewrite !Exists_cons, Exists_nil. cbn [snd].
  assert (Hfall : detected (detect_fall (fall_threshold
            (store_history (nose_at 0 0) [("nose", 0)] frozen_since_990))
            (nose_at 0 0)) = false) by reflexivity.
  assert (Hrapid : detected (detect_rapid_movements (rapid_movement_threshold
            (store_history (nose_at 0 0) [("nose", 0)] frozen_since_990))
            [("nose", 0)]) = false).
  { unfold detect_rapid_movements, rapid_loop.
    rewrite decide_False by (simpl; lra). done. }
  assert (Hseiz : detected (detect_seizure_patterns (seizure_patterns (self w'))
                              [("nose", 0)]) = false).
  { destruct (decide (clk 1%nat - 990 > 10)); injection Himm as _ <-;
      unfold detect_seizure_patterns;
      rewrite detected_patterns_matching;
      cbn [self seizure_patterns store_history set_history frozen_since_990
           set_immobility set_prev_keypoints init];
      unfold matching_patterns, default_patterns;
      rewrite !filter_cons_False, filter_nil; try done;
      intros [_ Hm]; rewrite consistency_at_rest in Hm by (simpl; lra);
      simpl in Hm; lra. }
  rewrite Hfall, Hrapid, Hseiz.
  destruct (decide (clk 1%nat - 990 > 10)) as [Hlate|Hearly];
    injection Himm as <- _; cbn [detected normal_movement].
  - split; [done | intros _; right; right; by left].
  - split; [intros [?|[?|[?|[?|?]]]]; done | done].
Qed.

(** C8, as stated, fails: on the frozen subject two calls with the same
    frame, the same state and the same first clock reading return different
    decisions, because [_detect_immobility] reads the clock again. *)
Lemma later_readings_change_the_decision :
  ¬ (∀ (clk1 clk2 : Clock) (keypoints_data : option KeypointsData)
       (d : SeizureDetector),
        clk1 0%nat = clk2 0%nat →
        call clk1 keypoints_data d = call clk2 keypoints_data d).
Proof.
  intros H.
  specialize (H (fun _ => 1000) late_clock still frozen_since_990 eq_refl).
  destruct (frozen_call_alert (fun _ => 1000) eq_refl) as (r1 & d1 & H1 & Hiff1).
  destruct (frozen_call_alert late_clock eq_refl) as (r2 & d2 & H2 & Hiff2).
  rewrite H1, H2 in H. injection H as -> _.
  assert (Hr2 : alert r2 = true) by (apply Hiff2; simpl; lra).
  apply Hiff1 in Hr2. lra.
Qed.

End Clock.

Section Exceptions.

Local Open Scope R_scope.

(** C4 fails on the code: fed twice to a fresh detector, a frame whose
    keypoints lack their coordinates makes the second call of
    [analyze_movement] raise [KeyError] out of [_calculate_velocities], while
    [_detect_fall] turns the same missing key into a not-detected result. *)
Theorem analyze_movement_raises_key_error :
  (feed uncoordinated_stream init).1
  = [Ret _create_no_alert_result; Raise (KeyError "x")] ∧
  detect_fall (6 / 10) uncoordinated
  = mkResult false 0 (ErrorText (KeyError "y")) NoExtra.
Proof.
  split; [|reflexivity].
  unfold uncoordinated_stream. rewrite feed_cons.
  rewrite call_unfold, decide_False by (simpl; lra).
  change (calculate_velocities (prev_keypoints init) uncoordinated)
    with (@Ret VelocityMap []).
  cbv beta iota.
  rewrite detection_results_unfold, detect_immobility_unfold.
  change (prev_keypoints (self _)) with (@None Frame). cbv beta iota.
  change (_determine_alert _) with _create_no_alert_result.
  cbn [fst snd]. f_equal.
  rewrite feed_cons. cbn [feed fst].
  rewrite call_unfold, decide_False by (simpl; lra).
  reflexivity.
Qed.

End Exceptions.

Section RapidMovements.

Local Open Scope R_scope.




End RapidMovements.

Section Arbiter.

Local Open Scope R_scope.

Lemma alerts_flagged results :
  alerts results
  = map (fun nr => mkEntry nr.1 (confidence nr.2) (reason nr.2) nr.2)
        (flagged results).
Proof.
  unfold flagged. induction results as [|[name r] results IH]; [done|].
  simpl. rewrite filter_cons. simpl.
  destruct (detected r) eqn:Hr.
  - rewrite decide_True by done. simpl. by rewrite IH.
  - rewrite decide_False by congruence. done.
Qed.

(** X2: [_determine_alert] answers with the no-alert decision exactly when
    no analyzer result is flagged; otherwise the decision carries the name,
    confidence and reason of a flagged result of greatest confidence, and
    every flagged result before it in the dict is strictly less confident:
    ties go to the analyzer run first. *)
Theorem determine_alert_first_best (results : list (string * DetectionResult)) :
  (flagged results = [] → _determine_alert results = _create_no_alert_result) ∧
  (flagged results ≠ [] →
   ∃ i name r,
     flagged results !! i = Some (name, r) ∧
     _determine_alert results
     = mkDecision true name (confidence r) (reason r) (Some r) ∧
     (∀ j nr, flagged results !! j = Some nr → confidence nr.2 <= confidence r) ∧
     (∀ j nr, (j < i)%nat → flagged results !! j = Some nr →
              confidence nr.2 < confidence r)).
Proof.
  unfold _determine_alert. rewrite alerts_flagged.
  split.
  - by intros ->.
  - intros Hne. destruct (flagged results) as [|e0 rest] eqn:Hf; [done|].
    set (to_entry := fun nr : string * DetectionResult => _).
    simpl map.
    destruct (max_by_spec e_confidence (to_entry e0) (map to_entry rest))
      as (i & Hi & Hle & Hlt).
    set (best := max_by e_confidence (to_entry e0) (map to_entry rest)) in *.
    change (to_entry e0 :: map to_entry rest) with (map to_entry (e0 :: rest)) in *.
    rewrite list_lookup_fmap in Hi.
    destruct ((e0 :: rest) !! i) as [[name r]|] eqn:Hnr; [|done].
    simpl in Hi. injection Hi as Hbest. clearbody best. subst best.
    exists i, name, r. split; [done|]. split; [done|]. split.
    + intros j nr Hj. apply (Hle j (to_entry nr)).
      by rewrite list_lookup_fmap, Hj.
    + intros j nr Hlt' Hj. apply (Hlt j (to_entry nr) Hlt').
      by rewrite list_lookup_fmap, Hj.
Qed.

Lemma determine_alert_first_best_witness :
  ∃ i name r,
    flagged [("fall", mkResult true (8 / 10) (Text "a") NoExtra);
             ("rapid_movements", mkResult true (9 / 10) (Text "b") NoExtra);
             ("immobility", mkResult false 0 (Text "c") NoExtra);
             ("seizure_patterns", mkResult true (9 / 10) (Text "d") NoExtra)]
    !! i = Some (name, r) ∧
    _determine_alert
      [("fall", mkResult true (8 / 10) (Text "a") NoExtra);
       ("rapid_movements", mkResult true (9 / 10) (Text "b") NoExtra);
       ("immobility", mkResult false 0 (Text "c") NoExtra);
       ("seizure_patterns", mkResult true (9 / 10) (Text "d") NoExtra)]
    = mkDecision true name (confidence r) (reason r) (Some r).
Proof.
  destruct (proj2 (determine_alert_first_best
              [("fall", mkResult true (8 / 10) (Text "a") NoExtra);
               ("rapid_movements", mkResult true (9 / 10) (Text "b") NoExtra);
               ("immobility", mkResult false 0 (Text "c") NoExtra);
               ("seizure_patterns", mkResult true (9 / 10) (Text "d") NoExtra)]))
    as (i & name & r & Hi & Hd & _).
  - discriminate.
  - by exists i, name, r.
Defined.

End Arbiter.

Section Streams.

Local Open Scope R_scope.

Lemma displacement_raises c c' e :
  displacement c c' = Raise e → e = KeyError "x" ∨ e = KeyError "y".
Proof.
  unfold displacement, get_x, get_y.
  destruct (kx c), (ky c), (kx c'), (ky c'); simpl; intros [= <-]; auto.
Qed.

Lemma velocities_loop_raises parts keypoints prev acc e :
  velocities_loop parts keypoints prev acc = Raise e →
  e = KeyError "x" ∨ e = KeyError "y".
Proof.
  revert acc. induction parts as [|p parts IH]; intros acc; simpl; [done|].
  destruct (keypoints !! p) as [c|]; [|apply IH].
  destruct (prev !! p) as [c'|]; [|apply IH].
  destruct (displacement c c') as [v|e'] eqn:Hd; simpl.
  - apply IH.
  - intros [= <-]. by apply (displacement_raises c c').
Qed.


(** Where the detector of a call comes from: it is untouched, or it is what
    [_detect_immobility] left after the history was stored, with or without
    the final update. *)
Lemma call_final clk keypoints_data d o d' :
  call clk keypoints_data d = (o, d') →
  (d' = d ∧ returns_or_key_error o) ∨
  ∃ keypoints velocities oi w,
    keypoints_data = Some (mkData (Some keypoints)) ∧
    calculate_velocities (prev_keypoints d) keypoints = Ret velocities ∧
    _detect_immobility keypoints clk
      (mkWorld (store_history keypoints velocities d) 1) = (oi, w) ∧
    ((∃ e, oi = Raise e ∧ o = Raise e ∧ d' = self w) ∨
     (∃ r, o = Ret r ∧ d' = commit keypoints (clk 0%nat) r (self w))).
Proof.
  destruct keypoints_data as [[[keypoints|]]|].
  2,3: intros [= <- <-]; left; split; [done|]; left; by eexists.
  rewrite call_unfold.
  destruct (decide _) as [Hgate|Hpass].
  { intros [= <- <-]. left. split; [done|]. left. by eexists. }
  destruct (calculate_velocities _ _) as [vel|e] eqn:Hvel.
  2: { intros [= <- <-]. left. split; [done|]. right.
       destruct (prev_keypoints d) as [prev|]; [|done].
       unfold calculate_velocities in Hvel.
       apply velocities_loop_raises in Hvel as [-> | ->]; auto. }
  rewrite detection_results_unfold.
  destruct (_detect_immobility _ _ _) as [[imm|e] w] eqn:Himm.
  - intros [= <- <-]. right. exists keypoints, vel, (Ret imm), w.
    repeat (split; [done|]). right. by eexists.
  - intros [= <- <-]. right. exists keypoints, vel, (Raise e), w.
    repeat (split; [done|]). left. by eexists.
Qed.



Lemma deque_append_length {A} (q : list A) (a : A) :
  (length q <= 30)%nat →
  length (deque_append q a) = Nat.min (S (length q)) 30.
Proof.
  intros Hq. unfold deque_append.
  destruct (30 <=? length q)%nat eqn:Hfull.
  - apply Nat.leb_le in Hfull. rewrite length_app. simpl.
    destruct q; simpl in *; lia.
  - apply Nat.leb_gt in Hfull. rewrite length_app. simpl. lia.
Qed.

Lemma call_keeps_history clk keypoints_data d o d' :
  history_ok d → call clk keypoints_data d = (o, d') → history_ok d'.
Proof.
  intros [Hsame Hle] Hcall.
  destruct (call_final _ _ _ _ _ Hcall)
    as [[-> Ho]|(kp & vel & oi & w & _ & _ & Himm & Hend)]; [done|].
  apply detect_immobility_frame in Himm as (s & f & Hself).
  assert (Hw : history_ok (self w)).
  { rewrite Hself. unfold history_ok. simpl.
    rewrite !deque_append_length by lia. rewrite Hsame. split; lia. }
  destruct Hend as [(e & -> & -> & ->)|(r & -> & ->)]; [done|].
  unfold commit. by destruct (alert r).
Qed.

Lemma call_keeps_configuration clk keypoints_data d o d' :
  call clk keypoints_data d = (o, d') → reset_state d' = reset_state d.
Proof.
  intros Hcall.
  destruct (call_final _ _ _ _ _ Hcall)
    as [[-> Ho]|(kp & vel & oi & w & _ & _ & Himm & Hend)]; [done|].
  apply detect_immobility_frame in Himm as (s & f & Hself).
  destruct Hend as [(e & -> & -> & ->)|(r & -> & ->)].
  - by rewrite Hself.
  - unfold commit. rewrite Hself. by destruct (alert r).
Qed.

(** What every call keeps, a stream of calls keeps. *)
Lemma feed_invariant (P : SeizureDetector → Prop) (Q : outcome AlertDecision → Prop) :
  (∀ clk keypoints_data d o d',
      P d → call clk keypoints_data d = (o, d') → P d' ∧ Q o) →
  ∀ calls d, P d → P (feed calls d).2 ∧ Forall Q (feed calls d).1.
Proof.
  intros Hstep calls. induction calls as [|[clk data] calls IH]; intros d Hd.
  - split; [done|constructor].
  - cbn [feed]. destruct (call clk data d) as [o d'] eqn:Hcall.
    destruct (Hstep _ _ _ _ _ Hd Hcall) as [Hd' Ho].
    destruct (IH d' Hd') as [Hend Hos].
    destruct (feed calls d') as [os d'']. simpl in *.
    split; [done|by constructor].
Qed.

(** X3: [reset_state] forgets the stream: after any calls, whatever they
    returned or raised, resetting gives the detector that resetting at the
    start gives, and a detector that started fresh is fresh again; the
    configuration is never changed by a call. *)
Theorem reset_state_forgets_the_stream
    (calls : list (Clock * option KeypointsData)) (d : SeizureDetector) :
  reset_state (feed calls d).2 = reset_state d ∧
  reset_state (feed calls init).2 = init.
Proof.
  assert (Hgen : ∀ d0, reset_state (feed calls d0).2 = reset_state d0).
  { intros d0.
    apply (feed_invariant (fun d' => reset_state d' = reset_state d0)
                          (fun _ => True)); [|done].
    intros clk data d1 o d' Hd1 Hcall. split; [|done].
    rewrite <- Hd1. by apply (call_keeps_configuration clk data d1 o). }
  split; [apply Hgen|]. by rewrite Hgen.
Qed.

(** X4: along any stream of calls the two history deques keep equal lengths
    and never hold more than their [maxlen] of 30 entries. *)
Theorem history_stays_bounded
    (calls : list (Clock * option KeypointsData)) (d : SeizureDetector) :
  history_ok d → history_ok (feed calls d).2.
Proof.
  intros Hd.
  apply (feed_invariant history_ok (fun _ => True)); [|done].
  intros clk data d1 o d' Hd1 Hcall. split; [|done].
  by apply (call_keeps_history clk data d1 o).
Qed.

Lemma history_stays_bounded_witness : history_ok (feed alert_stream init).2.
Proof.
  apply (history_stays_bounded alert_stream init).
  split; simpl; lia.
Defined.



End Streams.

Section HistoryUnused.

Local Open Scope R_scope.

Lemma detect_immobility_ignores_history keypoints clk d n mh vh :
  _detect_immobility keypoints clk (mkWorld (set_history mh vh d) n)
  = ((_detect_immobility keypoints clk (mkWorld d n)).1,
     mkWorld (set_history mh vh (self (_detect_immobility keypoints clk (mkWorld d n)).2))
             (ticks (_detect_immobility keypoints clk (mkWorld d n)).2)).
Proof.
  rewrite !detect_immobility_unfold. cbn [self ticks set_history prev_keypoints
    immobility_threshold immobility_detected immobility_duration_threshold
    immobility_start_time].
  destruct (prev_keypoints d) as [prev|]; [|done].
  destruct (movement_loop _ _ _ _) as [[total count]|e]; [|done].
  destruct (0 <? count)%nat; [|done].
  destruct (decide _); [|done].
  destruct (immobility_detected d); cbn [self ticks set_history set_immobility
    immobility_start_time].
  - destruct (immobility_start_time d); [|done]. by destruct (decide _).
  - by destruct (decide _).
Qed.

Lemma call_ignores_history clk keypoints_data d mh vh :
  ∃ mh' vh',
    call clk keypoints_data (set_history mh vh d)
    = ((call clk keypoints_data d).1,
       set_history mh' vh' (call clk keypoints_data d).2).
Proof.
  destruct keypoints_data as [[[keypoints|]]|]; try by exists mh, vh.
  rewrite !call_unfold.
  change (last_alert_time (set_history mh vh d)) with (last_alert_time d).
  change (alert_cooldown (set_history mh vh d)) with (alert_cooldown d).
  change (prev_keypoints (set_history mh vh d)) with (prev_keypoints d).
  destruct (decide _); [by exists mh, vh|].
  destruct (calculate_velocities _ _) as [vel|e]; [|by exists mh, vh].
  exists (deque_append mh keypoints), (deque_append vh vel).
  rewrite !detection_results_unfold.
  change (store_history keypoints vel (set_history mh vh d))
    with (set_history (deque_append mh keypoints) (deque_append vh vel)
            (store_history keypoints vel d)).
  rewrite detect_immobility_ignores_history.
  destruct (_detect_immobility keypoints clk
              (mkWorld (store_history keypoints vel d) 1)) as [[imm|e] w];
    cbn [fst snd self ticks]; [|done].
  unfold commit. by destruct (alert _).
Qed.

(** X6: the two history deques are written and never read: two detectors
    that differ only in their histories return the same result to the same
    call and differ only in their histories afterwards. *)
Theorem history_is_never_read (clk : Clock)
    (keypoints_data : option KeypointsData) (d : SeizureDetector)
    (mh : list Frame) (vh : list VelocityMap) :
  (call clk keypoints_data (set_history mh vh d)).1
  = (call clk keypoints_data d).1 ∧
  set_history [] [] (call clk keypoints_data (set_history mh vh d)).2
  = set_history [] [] (call clk keypoints_data d).2.
Proof.
  destruct (call_ignores_history clk keypoints_data d mh vh) as (mh' & vh' & ->).
  done.
Qed.

End HistoryUnused.

Section FirstFrame.

Local Open Scope R_scope.

Lemma detected_patterns_empty patterns : detected_patterns patterns [] = [].
Proof. induction patterns as [|[name cfg] patterns IH]; [done|]. exact IH. Qed.

(** X7: on the first frame, with no previous frame stored and the cooldown
    gate passed, only the fall analyzer can raise an alert: the decision is
    the fall alert when [_detect_fall] flags the frame and the no-alert
    decision otherwise, the frame is stored and the immobility timer is left
    as it was, even for a frame whose keypoint dicts lack coordinates. *)
Theorem first_frame_only_fall (clk : Clock) (keypoints : Frame)
    (d : SeizureDetector) :
  prev_keypoints d = None →
  ¬ clk 0%nat - last_alert_time d < alert_cooldown d →
  let fall := detect_fall (fall_threshold d) keypoints in
  ∃ d',
    call clk (Some (mkData (Some keypoints))) d
    = (Ret (if detected fall
            then mkDecision true "fall" (confidence fall) (reason fall) (Some fall)
            else _create_no_alert_result), d') ∧
    prev_keypoints d' = Some keypoints ∧
    immobility_start_time d' = immobility_start_time d ∧
    immobility_detected d' = immobility_detected d.
Proof.
  intros Hprev Hpass fall.
  rewrite call_unfold, decide_False by done.
  rewrite Hprev. cbn [calculate_velocities].
  rewrite detection_results_unfold, detect_immobility_unfold.
  change (prev_keypoints (self _)) with (prev_keypoints d). rewrite Hprev.
  cbn [self store_history set_history fall_threshold rapid_movement_threshold
       seizure_patterns].
  fold fall.
  assert (Hseiz : detect_seizure_patterns (seizure_patterns d) []
                  = mkResult false 0 (Text "No seizure patterns detected") NoExtra).
  { unfold detect_seizure_patterns. by rewrite detected_patterns_empty. }
  rewrite Hseiz.
  eexists. split; [|split; [apply commit_prev_keypoints|]].
  - f_equal. unfold _determine_alert. cbn [alerts].
    destruct (detected fall); reflexivity.
  - unfold commit. by destruct (alert _).
Qed.

Lemma first_frame_only_fall_witness :
  ∃ d',
    call (fun _ => 1000) collapsed (reset_state frozen_since_990)
    = (Ret (if detected (detect_fall (6 / 10) (body 110 100 120))
            then mkDecision true "fall"
                   (confidence (detect_fall (6 / 10) (body 110 100 120)))
                   (reason (detect_fall (6 / 10) (body 110 100 120)))
                   (Some (detect_fall (6 / 10) (body 110 100 120)))
            else _create_no_alert_result), d') ∧
    prev_keypoints d' = Some (body 110 100 120) ∧
    immobility_start_time d' = None ∧
    immobility_detected d' = false.
Proof.
  apply (first_frame_only_fall (fun _ => 1000) (body 110 100 120)
           (reset_state frozen_since_990)); [reflexivity | simpl; lra].
Defined.

End FirstFrame.

Section VelocityKeys.

Local Open Scope R_scope.

Lemma dict_set_fresh (d : VelocityMap) k v :
  k ∉ keys d → dict_set d k v = (d ++ [(k, v)])%list.
Proof.
  unfold keys. induction d as [|[k' v'] d IH]; simpl; [done|].
  intros Hk. apply not_elem_of_cons in Hk as [Hne Hk].
  rewrite decide_False by done. by rewrite IH.
Qed.

Lemma velocities_loop_keys parts (keypoints prev : Frame) acc vs :
  NoDup parts → (∀ p, p ∈ parts → p ∉ keys acc) →
  velocities_loop parts keypoints prev acc = Ret vs →
  keys vs
  = (keys acc
     ++ filter (fun p => is_Some (keypoints !! p) ∧ is_Some (prev !! p)) parts)%list.
Proof.
  revert acc. induction parts as [|p parts IH]; intros acc Hnd Hfresh; simpl.
  - intros [= <-]. by rewrite app_nil_r.
  - apply NoDup_cons in Hnd as [Hp Hnd]. rewrite filter_cons.
    destruct (keypoints !! p) as [c|] eqn:Hc.
    2: { rewrite decide_False by (intros [[? [=]] _]).
         apply IH; [done|]. intros q Hq. apply Hfresh, elem_of_cons. by right. }
    destruct (prev !! p) as [c'|] eqn:Hc'.
    2: { rewrite decide_False by (intros [_ [? [=]]]).
         apply IH; [done|]. intros q Hq. apply Hfresh, elem_of_cons. by right. }
    rewrite decide_True by (split; by eexists).
    destruct (displacement c c') as [v|e]; simpl; [|done].
    intros Hloop. apply IH in Hloop; [|done|].
    + rewrite Hloop, dict_set_fresh
        by (apply Hfresh, elem_of_cons; by left).
      unfold keys. rewrite map_app. simpl. by rewrite <- app_assoc.
    + intros q Hq. rewrite dict_set_fresh
        by (apply Hfresh, elem_of_cons; by left).
      unfold keys. rewrite map_app. simpl.
      intros Hin. apply elem_of_app in Hin as [Hin|Hin].
      * revert Hin. apply Hfresh, elem_of_cons. by right.
      * apply list_elem_of_singleton in Hin as ->. done.
Qed.

(** X8: when [_calculate_velocities] returns, the keys of its dict are the
    parts of [important_parts] present in both frames, in the order of
    [important_parts] and without repetition, so there are at most seven,
    and every velocity is nonnegative. *)
Theorem velocity_keys_are_the_shared_important_parts (keypoints prev : Frame)
    (velocities : VelocityMap) :
  calculate_velocities (Some prev) keypoints = Ret velocities →
  keys velocities
  = filter (fun p => is_Some (keypoints !! p) ∧ is_Some (prev !! p))
           important_parts ∧
  NoDup (keys velocities) ∧
  (length velocities <= 7)%nat ∧
  Forall (fun kv => 0 <= kv.2) velocities.
Proof.
  intros Hvel.
  assert (Hnd : NoDup important_parts).
  { apply (bool_decide_unpack _). by vm_compute. }
  pose proof (calculate_velocities_nonneg _ _ _ Hvel) as Hnonneg.
  unfold calculate_velocities in Hvel.
  apply velocities_loop_keys in Hvel; [|done|intros p _; apply not_elem_of_nil].
  simpl in Hvel. split; [done|]. split; [|split; [|done]].
  - rewrite Hvel. by apply NoDup_filter.
  - replace (length velocities) with (length (keys velocities))
      by (unfold keys; apply length_map).
    rewrite Hvel.
    etransitivity; [apply length_filter|]. done.
Qed.

Lemma velocity_keys_are_the_shared_important_parts_witness :
  keys [("left_ankle", euclid 300 120 300 120);
        ("right_ankle", euclid 340 120 340 120);
        ("nose", euclid 320 110 320 110)]
  = filter (fun p => is_Some (body 110 100 120 !! p) ∧
                     is_Some (body 110 100 120 !! p)) important_parts.
Proof.
  apply (velocity_keys_are_the_shared_important_parts
           (body 110 100 120) (body 110 100 120)).
  reflexivity.
Defined.

End VelocityKeys.

Section Consistency.

Local Open Scope R_scope.

Lemma fold_plus_shift (l : list R) (a : R) :
  fold_left Rplus l a = a + fold_left Rplus l 0.
Proof.
  revert a. induction l as [|x l IH]; intros a; simpl; [lra|].
  rewrite (IH (a + x)), (IH (0 + x)). lra.
Qed.

Lemma count_above_none threshold (vs : list R) :
  count_above threshold vs = 0%nat ↔ Forall (fun v => v <= threshold) vs.
Proof.
  induction vs as [|v vs IH]; simpl.
  - split; [constructor|done].
  - destruct (decide (v > threshold)) as [Hv|Hv].
    + split; [done|]. intros H. apply Forall_cons in H as [H _]. lra.
    + rewrite IH. split.
      * intros H. constructor; [lra|done].
      * intros H. by apply Forall_cons in H as [_ H].
Qed.

Lemma count_above_all threshold (vs : list R) :
  count_above threshold vs = length vs ↔ Forall (fun v => v > threshold) vs.
Proof.
  assert (Hle : ∀ l, (count_above threshold l <= length l)%nat).
  { induction l as [|x l IHl]; simpl; [lia|]. destruct (decide _); simpl; lia. }
  induction vs as [|v vs IH]; simpl.
  - split; [constructor|done].
  - destruct (decide (v > threshold)) as [Hv|Hv].
    + split.
      * intros [= H]. constructor; [done|]. by apply IH.
      * intros H. apply Forall_cons in H as [_ H]. f_equal. by apply IH.
    + split.
      * intros H. specialize (Hle vs). lia.
      * intros H. by apply Forall_cons in H as [H _].
Qed.

Lemma sum_above threshold (vs : list R) :
  Forall (fun v => v > threshold) vs →
  INR (length vs) * threshold <= sumR vs.
Proof.
  unfold sumR. induction 1 as [|v vs Hv _ IH]; simpl; [lra|].
  rewrite fold_plus_shift.
  destruct (length vs) eqn:Hl; simpl in *; lra.
Qed.

Lemma div_ge_1 a b : 0 < b → b <= a → 1 <= a / b.
Proof.
  intros Hb Hab. apply Rmult_le_reg_r with b; [done|].
  replace (a / b * b) with a by (field; lra). lra.
Qed.

Lemma div_le_1 a b : 0 < b → a <= b → a / b <= 1.
Proof.
  intros Hb Hab. apply Rmult_le_reg_r with b; [done|].
  replace (a / b * b) with a by (field; lra). lra.
Qed.

(** X9: for a nonempty dict of nonnegative velocities and a positive
    velocity threshold, the pattern consistency lies in the unit interval; it
    is at most 0.4 when no velocity is above the velocity threshold and is 1
    exactly when all are; so under a pattern threshold of at least 0.4 a
    pattern matches only if some part is faster than the velocity
    threshold. *)
Theorem consistency_needs_fast_parts (velocities : VelocityMap)
    (cfg : PatternConfig) :
  velocities ≠ [] → nonneg_velocities velocities → 0 < velocity_threshold cfg →
  let c := _calculate_pattern_consistency velocities cfg in
  let fast := count_above (velocity_threshold cfg) (values velocities) in
  0 <= c <= 1 ∧
  (fast = 0%nat → c <= 4 / 10) ∧
  (fast = length velocities → c = 1) ∧
  (c = 1 → fast = length velocities) ∧
  (4 / 10 <= pattern_threshold cfg → c > pattern_threshold cfg →
   (0 < fast)%nat).
Proof.
  intros Hne Hnonneg Hthr c fast.
  pose proof (consistency_unit_interval velocities cfg Hnonneg Hthr) as Hunit.
  unfold unit_interval in Hunit. fold c in Hunit.
  assert (Hlen : (0 < length velocities)%nat) by (destruct velocities; [done|simpl; lia]).
  assert (Hn : 0 < INR (length velocities)) by (by apply lt_0_INR).
  assert (Hvals : length (values velocities) = length velocities)
    by (unfold values; apply length_map).
  assert (Hc : c = Rmin (INR fast / INR (length velocities) * (6 / 10)
                         + Rmin (sumR (values velocities) / INR (length velocities)
                                 / velocity_threshold cfg) 1 * (4 / 10)) 1).
  { unfold c, _calculate_pattern_consistency.
    destruct (length velocities =? 0)%nat eqn:H0; [|done].
    apply Nat.eqb_eq in H0. lia. }
  assert (Hfast : 0 <= INR fast / INR (length velocities) <= 1).
  { split; [apply Rle_mult_inv_pos; [apply pos_INR|done]|].
    apply div_le_1; [done|].
    apply le_INR. rewrite <- Hvals. unfold fast.
    generalize (values velocities). intros l.
    induction l as [|x l IHl]; simpl; [lia|]. destruct (decide _); simpl; lia. }
  pose proof (Rmin_r (sumR (values velocities) / INR (length velocities)
                      / velocity_threshold cfg) 1) as Hmin1.
  assert (Hnone : fast = 0%nat → c <= 4 / 10).
  { intros H0. rewrite Hc, H0. simpl.
    etransitivity; [apply Rmin_l|]. unfold Rdiv at 1. rewrite Rmult_0_l. lra. }
  split; [done|]. split; [done|]. split; [|split].
  - intros Hall. rewrite Hc, Hall.
    unfold fast in Hall. rewrite <- Hvals in Hall.
    apply count_above_all, sum_above in Hall. rewrite Hvals in Hall.
    assert (Hratio : 1 <= sumR (values velocities) / INR (length velocities)
                          / velocity_threshold cfg).
    { apply div_ge_1; [done|].
      apply Rmult_le_reg_r with (INR (length velocities)); [done|].
      replace (sumR (values velocities) / INR (length velocities)
               * INR (length velocities))
        with (sumR (values velocities)) by (field; lra).
      lra. }
    rewrite (Rmin_right _ 1 Hratio).
    replace (INR (length velocities) / INR (length velocities)) with 1
      by (field; lra).
    apply Rmin_right. lra.
  - intros H1. rewrite Hc in H1.
    assert (Hsum : INR fast / INR (length velocities) * (6 / 10)
                   + Rmin (sumR (values velocities) / INR (length velocities)
                           / velocity_threshold cfg) 1 * (4 / 10) >= 1).
    { revert H1. unfold Rmin at 1. destruct (Rle_dec _ _); lra. }
    assert (Hone : INR fast / INR (length velocities) = 1) by lra.
    apply INR_eq.
    apply (Rmult_eq_compat_r (INR (length velocities))) in Hone.
    replace (INR fast / INR (length velocities) * INR (length velocities))
      with (INR fast) in Hone by (field; lra).
    lra.
  - intros Hpat Hmatch.
    destruct (decide (fast = 0%nat)) as [H0|H0]; [|lia].
    specialize (Hnone H0). lra.
Qed.

Lemma consistency_needs_fast_parts_witness :
  _calculate_pattern_consistency [("nose", 200)]
    (mkPattern "Myoclonic seizure with sudden jerks" 100 (6 / 10)) = 1.
Proof.
  refine (proj1 (proj2 (proj2 (consistency_needs_fast_parts [("nose", 200)]
            (mkPattern "Myoclonic seizure with sudden jerks" 100 (6 / 10))
            _ _ _))) _).
  - discriminate.
  - constructor; [simpl; lra|constructor].
  - simpl. lra.
  - simpl. rewrite decide_True by lra. reflexivity.
Defined.

End Consistency.

Section StillFrame.

Local Open Scope R_scope.

Lemma dict_set_zero (d : VelocityMap) k :
  Forall (fun kv => kv.2 = 0) d → Forall (fun kv => kv.2 = 0) (dict_set d k 0).
Proof.
  induction d as [|[k' v'] d IH]; simpl; intros Hd.
  - by constructor.
  - apply Forall_cons in Hd as [Hv Hd].
    destruct (decide (k' = k)); constructor; auto.
Qed.

Lemma velocities_loop_still parts (f : Frame) acc :
  wf_frame f → Forall (fun kv => kv.2 = 0) acc →
  ∃ vs, velocities_loop parts f f acc = Ret vs ∧ Forall (fun kv => kv.2 = 0) vs.
Proof.
  intros Hf. revert acc. induction parts as [|p parts IH]; intros acc Hacc; simpl.
  - by exists acc.
  - destruct (f !! p) as [c|] eqn:Hc; [|by apply IH].
    destruct (wf_keypoint_inv c (Hf _ _ Hc)) as (x & y & ->).
    rewrite displacement_kpt, euclid_same. simpl.
    by apply IH, dict_set_zero.
Qed.

Lemma sum_zero (vs : list R) : Forall (fun v => v = 0) vs → sumR vs = 0.
Proof.
  unfold sumR. induction 1 as [|v vs -> _ IH]; simpl; [done|].
  by rewrite Rplus_0_l.
Qed.

Lemma consistency_at_rest_all velocities cfg :
  Forall (fun kv => kv.2 = 0) velocities → 0 < velocity_threshold cfg →
  _calculate_pattern_consistency velocities cfg = 0.
Proof.
  intros Hzero Hthr. unfold _calculate_pattern_consistency.
  destruct (length velocities =? 0)%nat; [done|].
  assert (Hvals : Forall (fun v => v = 0) (values velocities)).
  { unfold values. apply Forall_fmap. eapply Forall_impl; [exact Hzero|]. done. }
  rewrite (sum_zero _ Hvals).
  rewrite (proj2 (count_above_none (velocity_threshold cfg) (values velocities))).
  2: { eapply Forall_impl; [exact Hvals|]. intros v ->. lra. }
  simpl. unfold Rdiv. rewrite !Rmult_0_l.
  rewrite (Rmin_left 0 1) by lra. rewrite Rmult_0_l, Rplus_0_l.
  apply Rmin_left. lra.
Qed.

(** X10: a well-formed frame compared with itself gives velocity 0 for every
    shared important part, so neither the rapid-movement analyzer (under a
    nonnegative threshold) nor the seizure-pattern analyzer (under positive
    velocity thresholds and nonnegative pattern thresholds) flags it. *)
Theorem still_frame_no_motion_alerts (f : Frame) (threshold : R)
    (patterns : list (string * PatternConfig)) :
  wf_frame f → 0 <= threshold →
  Forall (fun e => 0 < velocity_threshold e.2 ∧ 0 <= pattern_threshold e.2)
         patterns →
  ∃ velocities,
    calculate_velocities (Some f) f = Ret velocities ∧
    Forall (fun kv => kv.2 = 0) velocities ∧
    detected (detect_rapid_movements threshold velocities) = false ∧
    detected (detect_seizure_patterns patterns velocities) = false.
Proof.
  intros Hf Hthr Hpat.
  destruct (velocities_loop_still important_parts f [] Hf) as (vs & Hvs & Hzero);
    [constructor|].
  exists vs. split; [exact Hvs|]. split; [exact Hzero|]. split.
  - unfold detect_rapid_movements.
    assert (Hloop : rapid_loop threshold vs = []).
    { clear Hvs. induction Hzero as [|[k v] vs Hv _ IH]; simpl; [done|].
      simpl in Hv. subst v. by rewrite decide_False by lra. }
    by rewrite Hloop.
  - unfold detect_seizure_patterns. rewrite detected_patterns_matching.
    unfold matching_patterns.
    assert (Hnone : filter (pattern_matches vs) patterns = []).
    { induction Hpat as [|e patterns [Hv Hp] _ IH]; [done|].
      rewrite filter_cons, decide_False; [exact IH|].
      intros [_ Hm]. rewrite consistency_at_rest_all in Hm by done. lra. }
    by rewrite Hnone.
Qed.

Lemma still_frame_no_motion_alerts_witness :
  ∃ velocities,
    calculate_velocities (Some (body 110 100 120)) (body 110 100 120)
    = Ret velocities ∧
    Forall (fun kv => kv.2 = 0) velocities ∧
    detected (detect_rapid_movements 50 velocities) = false ∧
    detected (detect_seizure_patterns default_patterns velocities) = false.
Proof.
  apply (still_frame_no_motion_alerts (body 110 100 120) 50 default_patterns).
  - apply wf_frame_body.
  - lra.
  - repeat (constructor; [simpl; lra|]). constructor.
Defined.

End StillFrame.

Section FallPosture.

Local Open Scope R_scope.

Lemma detect_fall_eval_full threshold keypoints nose_y lhy rhy lay ray :
  fall_parts keypoints nose_y lhy rhy lay ray →
  detect_fall threshold keypoints
  = (let hip_y := (IZR lhy + IZR rhy) / 2 in
     let ankle_y := (IZR lay + IZR ray) / 2 in
     let body_height := Rabs (hip_y - IZR nose_y) in
     let body_width := Rabs (ankle_y - hip_y) in
     let is_horizontal := bool_decide (body_width > body_height * (15 / 10)) in
     let is_low_position := bool_decide (IZR nose_y > hip_y) in
     let '(fall_confidence, reason) :=
       if is_horizontal && is_low_position
       then (8 / 10, "Body in horizontal position with head below hips")
       else if is_horizontal then (6 / 10, "Body in horizontal position")
       else if is_low_position then (4 / 10, "Head position below hips")
       else (0, "") in
     mkResult (bool_decide (fall_confidence > threshold)) fall_confidence
              (Text reason) (FallExtra body_height body_width)).
Proof.
  intros ((c1 & H1 & Y1) & (c2 & H2 & Y2) & (c3 & H3 & Y3) & (c4 & H4 & Y4)
          & (c5 & H5 & Y5)).
  unfold detect_fall, detect_fall_body, required_parts, getitem, get_y.
  cbn [forallb]. rewrite H1, H2, H3, H4, H5.
  cbn [obind]. rewrite Y1, Y2, Y3, Y4, Y5. simpl.
  destruct (bool_decide _), (bool_decide _); done.
Qed.

(** X11: [_detect_fall] reads the vertical coordinates only through their
    differences: moving the five required parts of a frame up or down by the
    same number of pixels leaves the whole result unchanged. *)
Theorem detect_fall_shift_invariant (threshold : R) (keypoints keypoints' : Frame)
    (nose_y lhy rhy lay ray k : Z) :
  fall_parts keypoints nose_y lhy rhy lay ray →
  fall_parts keypoints' (nose_y + k) (lhy + k) (rhy + k) (lay + k) (ray + k) →
  detect_fall threshold keypoints' = detect_fall threshold keypoints.
Proof.
  intros H H'.
  rewrite (detect_fall_eval_full threshold keypoints' _ _ _ _ _ H'),
    (detect_fall_eval_full threshold keypoints _ _ _ _ _ H).
  cbv zeta. rewrite !plus_IZR.
  replace ((IZR lay + IZR k + (IZR ray + IZR k)) / 2
           - (IZR lhy + IZR k + (IZR rhy + IZR k)) / 2)
    with ((IZR lay + IZR ray) / 2 - (IZR lhy + IZR rhy) / 2) by lra.
  replace ((IZR lhy + IZR k + (IZR rhy + IZR k)) / 2 - (IZR nose_y + IZR k))
    with ((IZR lhy + IZR rhy) / 2 - IZR nose_y) by lra.
  rewrite (bool_decide_ext
             (IZR nose_y + IZR k > (IZR lhy + IZR k + (IZR rhy + IZR k)) / 2)
             (IZR nose_y > (IZR lhy + IZR rhy) / 2)) by (split; lra).
  reflexivity.
Qed.

Lemma fall_parts_shifted n h a dx :
  fall_parts
    (list_to_map
       [("nose", kpt (320 + dx) n);
        ("left_hip", kpt (300 + dx) h); ("right_hip", kpt (340 + dx) h);
        ("left_ankle", kpt (300 + dx) a); ("right_ankle", kpt (340 + dx) a);
        ("left_wrist", kpt dx dx)])
    n h h a a.
Proof. repeat split; eexists; (split; [vm_compute; reflexivity | reflexivity]). Qed.

Lemma detect_fall_shift_invariant_witness :
  detect_fall (6 / 10)
    (list_to_map
       [("nose", kpt (320 + 7) (110 + 50));
        ("left_hip", kpt (300 + 7) (100 + 50));
        ("right_hip", kpt (340 + 7) (100 + 50));
        ("left_ankle", kpt (300 + 7) (120 + 50));
        ("right_ankle", kpt (340 + 7) (120 + 50));
        ("left_wrist", kpt 7 7)])
  = detect_fall (6 / 10) (body 110 100 120).
Proof.
  apply (detect_fall_shift_invariant (6 / 10) (body 110 100 120) _
           110 100 100 120 120 50).
  - apply fall_parts_body.
  - apply (fall_parts_shifted (110 + 50) (100 + 50) (120 + 50) 7).
Defined.

Lemma required_parts_cases (P : string → Prop) :
  (∀ p, p ∈ required_parts → P p) →
  P "nose" ∧ P "left_hip" ∧ P "right_hip" ∧ P "left_ankle" ∧ P "right_ankle".
Proof.
  intros H. repeat split; apply H; unfold required_parts;
    repeat (first [apply list_elem_of_here | apply list_elem_of_further]).
Qed.

(** X12: [_detect_fall] never raises on an incomplete frame: when a required
    part is missing the result is the not-detected ['Missing keypoints'], and
    when all five are present but one of them has no ['y'] the [KeyError] is
    caught and the result is not detected with the reason [Error: 'y']. *)
Theorem detect_fall_incomplete_frames (threshold : R) (keypoints : Frame) :
  ((∃ p, p ∈ required_parts ∧ keypoints !! p = None) →
   detect_fall threshold keypoints
   = mkResult false 0 (Text "Missing keypoints") NoExtra) ∧
  ((∀ p, p ∈ required_parts → is_Some (keypoints !! p)) →
   (∃ p c, p ∈ required_parts ∧ keypoints !! p = Some c ∧ ky c = None) →
   detect_fall threshold keypoints
   = mkResult false 0 (ErrorText (KeyError "y")) NoExtra).
Proof.
  split.
  - intros (p & Hp & Hnone).
    unfold detect_fall, detect_fall_body.
    assert (Hall : forallb (fun p => bool_decide (is_Some (keypoints !! p)))
                           required_parts = false).
    { apply not_true_is_false. intros Hall.
      rewrite forallb_forall in Hall. apply list_elem_of_In in Hp.
      specialize (Hall p Hp). apply bool_decide_eq_true in Hall.
      rewrite Hnone in Hall. by destruct Hall. }
    by rewrite Hall.
  - intros Hall (p & c & Hp & Hc & Hy).
    destruct (required_parts_cases _ Hall)
      as ([c1 H1] & [c2 H2] & [c3 H3] & [c4 H4] & [c5 H5]).
    unfold detect_fall, detect_fall_body, required_parts, getitem, get_y.
    cbn [forallb]. rewrite H1, H2, H3, H4, H5. cbn [obind].
    unfold required_parts in Hp.
    repeat (apply elem_of_cons in Hp as [-> | Hp]);
      [..|by apply elem_of_nil in Hp];
      rewrite ?H1, ?H2, ?H3, ?H4, ?H5 in Hc; injection Hc as <-;
      rewrite Hy; simpl;
      destruct (ky c1), (ky c2), (ky c3), (ky c4), (ky c5); try done.
Qed.

Lemma detect_fall_incomplete_frames_witness :
  detect_fall (6 / 10) hips_only
  = mkResult false 0 (Text "Missing keypoints") NoExtra ∧
  detect_fall (6 / 10) uncoordinated
  = mkResult false 0 (ErrorText (KeyError "y")) NoExtra.
Proof.
  destruct (detect_fall_incomplete_frames (6 / 10) hips_only) as [Hmissing _].
  destruct (detect_fall_incomplete_frames (6 / 10) uncoordinated) as [_ Herror].
  split.
  - apply Hmissing. exists "nose". split; [apply list_elem_of_here|].
    by vm_compute.
  - apply Herror.
    + intros p Hp. unfold required_parts in Hp.
      repeat (apply elem_of_cons in Hp as [->|Hp];
              [exists (mkKeypoint None None); by vm_compute|]).
      by apply elem_of_nil in Hp.
    + exists "nose", (mkKeypoint None None).
      split; [apply list_elem_of_here|]. split; [by vm_compute|done].
Defined.

End FallPosture.

Section VideoProcessorAnalyzers.

Local Open Scope R_scope.

Lemma video_processor_parts p :
  p ∈ VideoProcessor.important_parts
  ↔ p ∈ important_parts ∧ ¬ (p = "left_shoulder" ∨ p = "right_shoulder").
Proof.
  unfold VideoProcessor.important_parts, important_parts. split.
  - intros Hin. repeat (apply elem_of_cons in Hin as [-> | Hin]);
      [..|by apply elem_of_nil in Hin];
      (split; [|by intros [?|?]]);
      repeat (first [apply list_elem_of_here | apply list_elem_of_further]).
  - intros [Hin Hs].
    repeat (apply elem_of_cons in Hin as [-> | Hin]);
      [..|by apply elem_of_nil in Hin];
      try (exfalso; apply Hs; auto; fail);
      repeat (first [apply list_elem_of_here | apply list_elem_of_further]).
Qed.

(** X13: on well-formed frames [VideoProcessor.calculate_movement_velocity]
    and [SeizureDetector._calculate_velocities] both return, and they agree
    on every part except the two shoulders, for which the video processor
    never has an entry. *)
Theorem video_processor_velocities_lack_shoulders (keypoints prev : Frame) :
  wf_frame keypoints → wf_frame prev →
  ∃ vp detector,
    VideoProcessor.calculate_movement_velocity keypoints (Some prev) = Ret vp ∧
    calculate_velocities (Some prev) keypoints = Ret detector ∧
    ∀ p, dict_get vp p
         = if decide (p = "left_shoulder" ∨ p = "right_shoulder") then None
           else dict_get detector p.
Proof.
  intros Hk Hp.
  destruct (velocities_loop_spec VideoProcessor.important_parts keypoints prev []
              Hk Hp) as (vp & Hvp & Hvpget).
  destruct (velocities_loop_spec important_parts keypoints prev [] Hk Hp)
    as (det & Hdet & Hdetget).
  exists vp, det. split; [exact Hvp|]. split; [exact Hdet|].
  intros p. rewrite Hvpget, Hdetget.
  destruct (keypoints !! p) as [c|]; [|by destruct (decide _)].
  destruct (prev !! p) as [c'|]; [|by destruct (decide _)].
  pose proof (video_processor_parts p) as Hparts.
  destruct (decide (p = "left_shoulder" ∨ p = "right_shoulder")) as [Hs|Hs];
    destruct (decide (p ∈ VideoProcessor.important_parts)) as [Hin|Hin];
    destruct (decide (p ∈ important_parts)) as [Hin'|Hin'];
    try done; exfalso; tauto.
Qed.

Lemma video_processor_velocities_lack_shoulders_witness :
  ∃ vp detector,
    VideoProcessor.calculate_movement_velocity (nose_at 3 4) (Some (nose_at 0 0))
    = Ret vp ∧
    calculate_velocities (Some (nose_at 0 0)) (nose_at 3 4) = Ret detector ∧
    ∀ p, dict_get vp p
         = if decide (p = "left_shoulder" ∨ p = "right_shoulder") then None
           else dict_get detector p.
Proof.
  apply (video_processor_velocities_lack_shoulders (nose_at 3 4) (nose_at 0 0));
    apply wf_frame_singleton.
Defined.

(** The fall result as a function of the threshold alone. *)
Lemma detect_fall_threshold keypoints :
  ∃ c rsn ex,
    (c = 0 ∨ c = 4 / 10 ∨ c = 6 / 10 ∨ c = 8 / 10) ∧
    ((∀ t, detect_fall t keypoints = mkResult (bool_decide (c > t)) c rsn ex) ∨
     (c = 0 ∧ ∀ t, detect_fall t keypoints = mkResult false 0 rsn ex)).
Proof.
  unfold detect_fall.
  destruct (detect_fall_body 0 keypoints) as [r|e] eqn:H.
  - unfold detect_fall_body in H |- *.
    destruct (negb _).
    { exists 0, (Text "Missing keypoints"), NoExtra. split; [by left|].
      right. by split. }
    repeat match type of H with
           | obind ?m _ = Ret _ =>
               destruct m; cbn [obind] in H |- *; [|discriminate H]
           end.
    clear H.
    destruct (bool_decide _), (bool_decide _); cbn [andb];
      eexists _, _, _; (split; [|left; intros t; reflexivity]); auto.
  - unfold detect_fall_body in H |- *.
    destruct (negb _); [discriminate H|].
    exists 0, (ErrorText e), NoExtra. split; [by left|]. right. split; [done|].
    intros t.
    repeat match type of H with
           | obind ?m _ = Raise _ =>
               destruct m; cbn [obind] in H |- *;
               [|injection H as <-; reflexivity]
           end.
    exfalso. revert H.
    destruct (bool_decide _), (bool_decide _); discriminate.
Qed.

(** X14: on every frame [VideoProcessor.detect_fall] and the detector's
    [_detect_fall] under its default threshold 0.6 agree on confidence,
    reason and body measures; every fall the detector flags the video
    processor flags too, and their [detected] flags differ exactly when the
    confidence is 0.6: a body that is horizontal with the head not below the
    hips. *)
Theorem video_processor_fall_differs_at_06 (keypoints : Frame) :
  let vp := VideoProcessor.detect_fall keypoints in
  let detector := detect_fall (6 / 10) keypoints in
  confidence vp = confidence detector ∧
  reason vp = reason detector ∧
  extra vp = extra detector ∧
  (detected detector = true → detected vp = true) ∧
  (detected vp ≠ detected detector ↔ confidence detector = 6 / 10).
Proof.
  unfold VideoProcessor.detect_fall.
  destruct (detect_fall_threshold keypoints)
    as (c & rsn & ex & Hc & [Hall|[Hzero Hall]]); rewrite !Hall; simpl.
  - repeat split; try done.
    + intros Hd. apply bool_decide_eq_true in Hd.
      apply bool_decide_eq_true. lra.
    + intros Hne. destruct Hc as [-> | [-> | [-> | ->]]]; try done; exfalso;
        apply Hne.
      * rewrite !bool_decide_false by lra. done.
      * rewrite !bool_decide_false by lra. done.
      * rewrite !bool_decide_true by lra. done.
    + intros ->. rewrite bool_decide_true, bool_decide_false by lra. done.
  - repeat split; try done. lra.
Qed.

(** X15: on well-formed frames [VideoProcessor.detect_immobility] returns;
    with no part shared with the previous frame it reports normal movement
    with average 0, and otherwise it reports the average displacement of the
    shared parts and flags the frame exactly when that average is strictly
    below the threshold, with confidence 0.7 when flagged and 0 otherwise. *)
Theorem video_processor_immobility_average (keypoints prev : Frame)
    (immobility_threshold : R) :
  wf_frame keypoints → wf_frame prev →
  ∃ r,
    VideoProcessor.detect_immobility keypoints (Some prev) immobility_threshold
    = Ret r ∧
    (comparable_parts keypoints prev = [] →
     r = VideoProcessor.mkImmobility false 0
           (VideoProcessor.PlainText "Normal movement detected") (Some 0)) ∧
    (comparable_parts keypoints prev ≠ [] →
     VideoProcessor.im_avg_movement r = Some (average_movement keypoints prev) ∧
     (VideoProcessor.im_detected r = true
      ↔ average_movement keypoints prev < immobility_threshold) ∧
     VideoProcessor.im_confidence r
     = if VideoProcessor.im_detected r then 7 / 10 else 0).
Proof.
  intros Hk Hp. unfold VideoProcessor.detect_immobility.
  rewrite (movement_loop_spec _ _ _ _ (wf_frame_items _ Hk) Hp).
  fold (comparable_parts keypoints prev). cbn [obind Nat.add].
  fold (sumR (map moved (comparable_parts keypoints prev))).
  fold (average_movement keypoints prev).
  destruct (comparable_parts keypoints prev) as [|cc ccs] eqn:Hcc.
  - eexists. split; [reflexivity|]. by split.
  - rewrite <- Hcc. replace (0 <? length (comparable_parts keypoints prev))%nat
      with true by (rewrite Hcc; reflexivity).
    fold (average_movement keypoints prev).
    destruct (decide (average_movement keypoints prev < immobility_threshold));
      eexists; (split; [reflexivity|]); (split; [by rewrite Hcc|]); intros _;
      simpl; by repeat split.
Qed.

Lemma video_processor_immobility_average_witness :
  ∃ r,
    VideoProcessor.detect_immobility (nose_at 30 40) (Some (nose_at 0 0)) 5
    = Ret r ∧
    VideoProcessor.im_avg_movement r = Some 50 ∧
    VideoProcessor.im_detected r = false.
Proof.
  destruct (video_processor_immobility_average (nose_at 30 40) (nose_at 0 0) 5
              (wf_frame_singleton "nose" 30 40) (wf_frame_singleton "nose" 0 0))
    as (r & Hr & _ & Hsome).
  destruct Hsome as (Havg & Hiff & _).
  { apply (comparable_items_nonempty _ _ "nose"); eexists; reflexivity. }
  rewrite average_movement_nose, euclid_30_40 in Havg, Hiff.
  exists r. split; [exact Hr|]. split; [exact Havg|].
  destruct (VideoProcessor.im_detected r); [|reflexivity].
  exfalso. assert (H : 50 < 5) by by apply Hiff. lra.
Defined.

(** X16: the detector's [_detect_immobility] is the video processor's
    analyzer with a timer: whenever the detector flags immobility the video
    processor flags the same pair of frames under the same threshold; a pair
    the video processor flags leaves the detector's timer running, and a
    pair it does not flag, with some shared part, clears the timer. *)
Theorem detector_immobility_refines_video_processor (keypoints prev : Frame)
    (clk : Clock) (w : World) (r' : VideoProcessor.ImmobilityResult) :
  prev_keypoints (self w) = Some prev →
  timer_ok (self w) →
  VideoProcessor.detect_immobility keypoints (Some prev)
    (immobility_threshold (self w)) = Ret r' →
  ∃ r w',
    _detect_immobility keypoints clk w = (Ret r, w') ∧
    (detected r = true → VideoProcessor.im_detected r' = true) ∧
    (VideoProcessor.im_detected r' = true →
     immobility_detected (self w') = true) ∧
    (VideoProcessor.im_detected r' = false →
     VideoProcessor.im_avg_movement r' ≠ Some 0 →
     immobility_detected (self w') = false ∧
     immobility_start_time (self w') = None).
Proof.
  intros Hprev Htimer. unfold VideoProcessor.detect_immobility.
  rewrite detect_immobility_unfold, Hprev.
  destruct (movement_loop _ _ _ _) as [[total count]|e]; [|done].
  cbn [obind].
  destruct (0 <? count)%nat.
  2: { intros [= <-]. by eexists _, _. }
  destruct (decide _) as [Hlow|Hhigh].
  2: { intros [= <-]. eexists _, _. split; [reflexivity|]. by repeat split. }
  intros [= <-].
  destruct (immobility_detected (self w)) eqn:Hflag; cbn beta iota zeta.
  - destruct (Htimer Hflag) as [start ->].
    destruct (decide _); eexists _, _; (split; [reflexivity|]); by repeat split.
  - cbn [self set_immobility immobility_start_time ticks].
    destruct (decide _); eexists _, _; (split; [reflexivity|]); by repeat split.
Qed.

Lemma video_processor_flags_rest :
  ∃ r', VideoProcessor.detect_immobility (nose_at 0 0) (Some (nose_at 0 0)) 5
        = Ret r' ∧ VideoProcessor.im_detected r' = true.
Proof.
  unfold VideoProcessor.detect_immobility.
  change (movement_loop _ _ _ _) with (Ret (0 + euclid 0 0 0 0, 1%nat)).
  cbn [obind Nat.ltb Nat.leb]. rewrite euclid_same.
  rewrite decide_True by (simpl; lra). by eexists.
Qed.

Lemma detector_immobility_refines_video_processor_witness :
  ∃ r w',
    _detect_immobility (nose_at 0 0) (fun _ => 1000)
      (mkWorld frozen_since_990 1) = (Ret r, w') ∧
    immobility_detected (self w') = true.
Proof.
  destruct video_processor_flags_rest as (r' & Hr' & Hdet).
  destruct (detector_immobility_refines_video_processor (nose_at 0 0)
              (nose_at 0 0) (fun _ => 1000) (mkWorld frozen_since_990 1) r'
              eq_refl (proj2 wf_detector_frozen) Hr')
    as (r & w' & Hrun & _ & Hflag & _).
  exists r, w'. split; [exact Hrun|]. exact (Hflag Hdet).
Defined.

End VideoProcessorAnalyzers.

Section BackendAccounting.

Local Open Scope R_scope.

Lemma alerts_types results :
  Forall (fun a => e_type a ∈ map fst results) (alerts results).
Proof.
  induction results as [|[name r] results IH]; simpl; [constructor|].
  assert (Hrest : Forall (fun a => e_type a ∈ name :: map fst results)
                         (alerts results)).
  { eapply Forall_impl; [exact IH|]. intros a Ha. by apply list_elem_of_further. }
  destruct (detected r); [|done].
  constructor; [|done]. simpl. apply list_elem_of_here.
Qed.

Lemma determine_alert_type results :
  alert (_determine_alert results) = true →
  alert_type (_determine_alert results) ∈ map fst results.
Proof.
  unfold _determine_alert.
  pose proof (alerts_types results) as Hall.
  destruct (alerts results) as [|first others]; [done|]. intros _. simpl.
  rewrite Forall_forall in Hall. apply Hall, max_by_elem.
Qed.

Lemma call_alert_type clk keypoints_data d r d' :
  call clk keypoints_data d = (Ret r, d') → alert r = true →
  alert_type r ∈ detector_alert_types.
Proof.
  destruct keypoints_data as [[[keypoints|]]|].
  2,3: by intros [= <- <-].
  rewrite call_unfold.
  destruct (decide _); [by intros [= <- <-]|].
  destruct (calculate_velocities _ _) as [vel|e]; [|done].
  rewrite detection_results_unfold.
  destruct (_detect_immobility _ _ _) as [[imm|e] w]; [|done].
  intros [= <- <-] Halert. by apply determine_alert_type in Halert.
Qed.

Lemma process_image_cases extracted o b out r b' out' :
  Backend.process_image extracted o b out = (r, b', out') →
  Backend.is_monitoring b' = Backend.is_monitoring b ∧
  ((Backend.alert_count b' = Backend.alert_count b ∧ out' = out ∧
    (is_fallback r ∨ alert r = false)) ∨
   (Backend.alert_count b' = S (Backend.alert_count b) ∧
    ∃ r0, alert r0 = true ∧ alert_type r0 ∈ detector_alert_types ∧
          recorded o r0 out out' ∧
          r = if Backend.emit_ok o then r0
              else Backend.fallback "error_fallback" (3 / 10)
                     (Backend.random_choice o))).
Proof.
  unfold Backend.process_image.
  destruct extracted as [[data|]|].
  2,3: intros [= <- <- <-]; split; [done|]; left; repeat split;
       left; unfold is_fallback; simpl; auto.
  destruct (Backend.seizure_detector b) as [d|].
  2: { intros [= <- <- <-]. split; [done|]. left. repeat split.
       left. unfold is_fallback. simpl. auto. }
  destruct (call (Backend.clock o) (Some data) d) as [[r0|e] d'] eqn:Hcall.
  2: { intros [= <- <- <-]. split; [done|]. left. repeat split.
       left. unfold is_fallback. simpl. auto. }
  destruct (alert r0) eqn:Halert.
  2: { intros [= <- <- <-]. split; [done|]. left. repeat split. by right. }
  unfold Backend._handle_alert, Backend._log_alert.
  pose proof (call_alert_type _ _ _ _ _ Hcall Halert) as Htype.
  destruct (Backend.emit_ok o) eqn:Hemit, (Backend.log_write_ok o) eqn:Hlog;
    intros [= <- <- <-]; (split; [done|]); right; (split; [done|]);
    exists r0; unfold recorded; rewrite Hemit, Hlog; simpl;
    rewrite ?app_nil_r; done.
Qed.

(** X17: one call of [process_image] never changes [is_monitoring].  Either
    it leaves [alert_count], the log and the broadcasts untouched, and its
    answer is a fallback or carries no alert; or the detector raised an alert
    of one of its four types, [alert_count] grows by one, the alert is
    logged when the write succeeds and broadcast when the emit succeeds, and
    the answer is that alert, or the error fallback when the emit failed.
    With a working emit a fallback answer is never counted or recorded. *)
Theorem process_image_accounting (extracted : option (option KeypointsData))
    (o : Backend.Oracle) (b : Backend.SeizureDetectionBackend)
    (out : Backend.Outside) :
  let '(r, b', out') := Backend.process_image extracted o b out in
  Backend.is_monitoring b' = Backend.is_monitoring b ∧
  ((Backend.alert_count b' = Backend.alert_count b ∧ out' = out ∧
    (is_fallback r ∨ alert r = false)) ∨
   (Backend.alert_count b' = S (Backend.alert_count b) ∧
    ∃ r0, alert r0 = true ∧ alert_type r0 ∈ detector_alert_types ∧
          recorded o r0 out out' ∧
          r = if Backend.emit_ok o then r0
              else Backend.fallback "error_fallback" (3 / 10)
                     (Backend.random_choice o))) ∧
  (is_fallback r → Backend.emit_ok o = true →
   Backend.alert_count b' = Backend.alert_count b ∧ out' = out).
Proof.
  destruct (Backend.process_image extracted o b out) as [[r b'] out'] eqn:Hrun.
  destruct (process_image_cases _ _ _ _ _ _ _ Hrun) as [Hmon Hcases].
  split; [done|]. split; [done|].
  intros Hfb Hemit.
  destruct Hcases as [(Hcount & Hout & _)|(_ & r0 & _ & Htype & _ & Hr)]; [done|].
  exfalso. rewrite Hemit in Hr. subst r.
  unfold detector_alert_types in Htype.
  destruct Hfb as [Hfb|Hfb]; rewrite Hfb in Htype;
    repeat (apply elem_of_cons in Htype as [Htype|Htype]; [discriminate|]);
    by apply elem_of_nil in Htype.
Qed.

Lemma fallback_not_detector_type r :
  is_fallback r → alert_type r ∉ detector_alert_types.
Proof.
  unfold detector_alert_types. intros [Hfb|Hfb] Htype; rewrite Hfb in Htype;
    repeat (apply elem_of_cons in Htype as [Htype|Htype]; [discriminate|]);
    by apply elem_of_nil in Htype.
Qed.

Lemma serve_accounts frames b out rs b' out' :
  Backend.serve frames b out = (rs, b', out') →
  Backend.is_monitoring b' = Backend.is_monitoring b ∧
  ∃ k new_log new_broadcast,
    Backend.alert_count b' = (Backend.alert_count b + k)%nat ∧
    Backend.event_log out' = (Backend.event_log out ++ new_log)%list ∧
    Backend.broadcast out' = (Backend.broadcast out ++ new_broadcast)%list ∧
    (length new_log <= k)%nat ∧ (length new_broadcast <= k)%nat ∧
    Forall (fun a => Backend.data_alert_type a ∈ detector_alert_types)
           new_broadcast ∧
    Forall (fun l => Backend.log_alert_type l ∈ detector_alert_types) new_log ∧
    (Forall io_succeeds frames →
     length new_log = k ∧ length new_broadcast = k ∧
     k = length (detector_alerts rs)).
Proof.
  revert b out rs b' out'.
  induction frames as [|[extracted o] frames IH]; intros b out rs b' out'.
  - intros [= <- <- <-]. split; [done|]. exists 0%nat, [], [].
    rewrite !app_nil_r, Nat.add_0_r. repeat split; try done; constructor.
  - cbn [Backend.serve].
    destruct (Backend.process_image extracted o b out) as [[r b1] out1] eqn:Hstep.
    destruct (Backend.serve frames b1 out1) as [[rs1 b2] out2] eqn:Hrest.
    intros [= <- <- <-].
    destruct (process_image_cases _ _ _ _ _ _ _ Hstep) as [Hmon Hcases].
    destruct (IH _ _ _ _ _ Hrest)
      as (Hmon' & k & nl & nb & Hk & Hl & Hb & Hnl & Hnb & Htb & Htl & Hok).
    split; [by rewrite Hmon', Hmon|].
    destruct Hcases as [(Hcount & -> & Hr)|(Hcount & r0 & Halert0 & Htype0 & [Hrl Hrb] & Hr)].
    + exists k, nl, nb. rewrite Hk, Hcount.
      do 7 (split; [done|]).
      intros Hall. apply Forall_cons in Hall as [_ Hall].
      destruct (Hok Hall) as (? & ? & ?). do 2 (split; [done|]).
      unfold detector_alerts. rewrite filter_cons, decide_False; [done|].
      intros [Ha Ht]. destruct Hr as [Hfb|Hna]; [|congruence].
      by apply (fallback_not_detector_type r).
    + exists (S k),
        ((if Backend.log_write_ok o
          then [Backend.mkLogEntry (Backend.now_isoformat o) (alert_type r0)
                                   (description r0)]
          else []) ++ nl)%list,
        ((if Backend.emit_ok o
          then [Backend.mkAlertData (Backend.now_isoformat o) (alert_type r0)
                                    (alert_confidence r0) (description r0)]
          else []) ++ nb)%list.
      rewrite Hk, Hcount, Hl, Hb, Hrl, Hrb, !app_assoc, !length_app.
      split; [lia|]. split; [reflexivity|]. split; [reflexivity|].
      split; [destruct (Backend.log_write_ok o); simpl; lia|].
      split; [destruct (Backend.emit_ok o); simpl; lia|].
      split; [apply Forall_app; split; [|done];
              destruct (Backend.emit_ok o);
              [by apply Forall_singleton|apply Forall_nil_2]|].
      split; [apply Forall_app; split; [|done];
              destruct (Backend.log_write_ok o);
              [by apply Forall_singleton|apply Forall_nil_2]|].
      intros Hall. apply Forall_cons in Hall as [[Hlog Hemit] Hall].
      simpl in Hlog, Hemit. destruct (Hok Hall) as (Hnl' & Hnb' & Hk').
      rewrite Hemit in Hr. rewrite Hlog, Hemit. simpl. subst r.
      do 2 (split; [lia|]).
      unfold detector_alerts. rewrite filter_cons, decide_True by done.
      simpl. by f_equal.
Qed.

(** X18: over any stream of images [is_monitoring] is unchanged,
    [alert_count] only grows, the log and the broadcasts are only appended
    to, each by at most as many entries as [alert_count] grew, and every new
    entry has one of the four alert types of the detector: a random fallback
    answer is never logged or broadcast. *)
Theorem serve_accounting
    (frames : list (option (option KeypointsData) * Backend.Oracle))
    (b : Backend.SeizureDetectionBackend) (out : Backend.Outside) :
  let '(rs, b', out') := Backend.serve frames b out in
  Backend.is_monitoring b' = Backend.is_monitoring b ∧
  ∃ k new_log new_broadcast,
    Backend.alert_count b' = (Backend.alert_count b + k)%nat ∧
    Backend.event_log out' = (Backend.event_log out ++ new_log)%list ∧
    Backend.broadcast out' = (Backend.broadcast out ++ new_broadcast)%list ∧
    (length new_log <= k)%nat ∧ (length new_broadcast <= k)%nat ∧
    Forall (fun a => Backend.data_alert_type a ∈ detector_alert_types)
           new_broadcast ∧
    Forall (fun l => Backend.log_alert_type l ∈ detector_alert_types) new_log.
Proof.
  destruct (Backend.serve frames b out) as [[rs b'] out'] eqn:Hrun.
  destruct (serve_accounts frames b out _ _ _ Hrun)
    as (Hmon & k & nl & nb & Hk & Hl & Hb & Hnl & Hnb & Htb & Htl & _).
  split; [done|]. by exists k, nl, nb.
Qed.

(** X19: when every log write and every emit succeeds, [alert_count], the
    log and the broadcasts each grow by exactly the number of answers that
    are alerts of one of the detector's four types; fallback alerts returned
    to the client are not counted. *)
Theorem serve_counts_detector_alerts
    (frames : list (option (option KeypointsData) * Backend.Oracle))
    (b : Backend.SeizureDetectionBackend) (out : Backend.Outside) :
  Forall io_succeeds frames →
  let '(rs, b', out') := Backend.serve frames b out in
  Backend.alert_count b'
  = (Backend.alert_count b + length (detector_alerts rs))%nat ∧
  length (Backend.event_log out')
  = (length (Backend.event_log out) + length (detector_alerts rs))%nat ∧
  length (Backend.broadcast out')
  = (length (Backend.broadcast out) + length (detector_alerts rs))%nat.
Proof.
  intros Hio.
  destruct (Backend.serve frames b out) as [[rs b'] out'] eqn:Hrun.
  destruct (serve_accounts frames b out _ _ _ Hrun)
    as (_ & k & nl & nb & Hk & Hl & Hb & _ & _ & _ & _ & Hok).
  destruct (Hok Hio) as (Hnl & Hnb & Hrs).
  rewrite Hk, Hl, Hb, !length_app. lia.
Qed.

Lemma serve_counts_detector_alerts_witness :
  Forall io_succeeds [(Some collapsed, reliable 1000)] ∧
  let '(rs, b', out') :=
    Backend.serve [(Some collapsed, reliable 1000)]
                  (Backend.initialize_components Backend.init)
                  (Backend.mkOutside [] []) in
  Backend.alert_count b'
  = (Backend.alert_count (Backend.initialize_components Backend.init)
     + length (detector_alerts rs))%nat ∧
  length (Backend.event_log out')
  = (length (Backend.event_log (Backend.mkOutside [] []))
     + length (detector_alerts rs))%nat ∧
  length (Backend.broadcast out')
  = (length (Backend.broadcast (Backend.mkOutside [] []))
     + length (detector_alerts rs))%nat.
Proof.
  assert (Hio : Forall io_succeeds
                  [(Some collapsed, reliable 1000)]).
  { apply Forall_singleton. by split. }
  split; [exact Hio|].
  exact (serve_counts_detector_alerts _ _ _ Hio).
Defined.

Lemma set_monitoring_process_image m extracted o b out :
  Backend.process_image extracted o (set_monitoring m b) out
  = let '(r, b', out') := Backend.process_image extracted o b out in
    (r, set_monitoring m b', out').
Proof.
  destruct b as [[d|] mon c];
    unfold Backend.process_image, set_monitoring; cbn [Backend.seizure_detector];
    destruct extracted as [[data|]|]; try done.
  destruct (call _ _ _) as [[r|e] d']; [|done].
  destruct (alert r); [|done].
  unfold Backend._handle_alert, Backend._log_alert, Backend.set_detector.
  by destruct (Backend.emit_ok o), (Backend.log_write_ok o).
Qed.

(** X20: [process_image] never reads [is_monitoring]: a stream of images
    gets the same answers and leaves the same log, broadcasts, detector and
    [alert_count] whether monitoring is started or stopped. *)
Theorem monitoring_flag_is_never_read
    (frames : list (option (option KeypointsData) * Backend.Oracle))
    (m : bool) (b : Backend.SeizureDetectionBackend) (out : Backend.Outside) :
  Backend.serve frames (set_monitoring m b) out
  = let '(rs, b', out') := Backend.serve frames b out in
    (rs, set_monitoring m b', out').
Proof.
  revert b out. induction frames as [|[extracted o] frames IH]; intros b out.
  - done.
  - cbn [Backend.serve]. rewrite set_monitoring_process_image.
    destruct (Backend.process_image extracted o b out) as [[r b1] out1].
    rewrite IH. by destruct (Backend.serve frames b1 out1) as [[rs b2] out2].
Qed.

Lemma switch_spec requests b oks b' :
  Backend.switch requests b = (oks, b') →
  b' = set_monitoring (last_request requests (Backend.is_monitoring b)) b ∧
  oks = changes requests (Backend.is_monitoring b).
Proof.
  revert b oks b'. induction requests as [|start rest IH]; intros b oks b'.
  - intros [= <- <-]. by destruct b.
  - cbn [Backend.switch last_request changes].
    destruct (if start then Backend.start_monitoring b
              else Backend.stop_monitoring b) as [ok b1] eqn:Hstep.
    destruct (Backend.switch rest b1) as [oks1 b2] eqn:Hrest.
    intros [= <- <-]. destruct (IH _ _ _ Hrest) as [-> ->].
    unfold Backend.start_monitoring, Backend.stop_monitoring in Hstep.
    destruct b as [d mon c], start, mon; simpl in *;
      injection Hstep as <- <-; done.
Qed.

(** X21: after any sequence of [start_monitoring] and [stop_monitoring]
    calls the flag is the one asked for last, the detector and [alert_count]
    are untouched, and a call returned [True] exactly when it changed the
    flag. *)
Theorem switch_follows_last_request (requests : list bool)
    (b : Backend.SeizureDetectionBackend) :
  let '(oks, b') := Backend.switch requests b in
  b' = set_monitoring (last_request requests (Backend.is_monitoring b)) b ∧
  oks = changes requests (Backend.is_monitoring b).
Proof.
  destruct (Backend.switch requests b) as [oks b'] eqn:Hrun.
  by apply switch_spec.
Qed.

End BackendAccounting.

Section Extractor.

Local Open Scope R_scope.

(** What the loop leaves in the dict, for names without repetition. *)
Lemma landmarks_loop_spec names landmarks height width acc :
  NoDup names.*1 →
  (is_Some (VideoProcessor.landmarks_loop names landmarks height width acc)
   ↔ Forall (fun ni => (ni.2 < length landmarks)%nat) names) ∧
  ∀ keypoints,
    VideoProcessor.landmarks_loop names landmarks height width acc
    = Some keypoints →
    (∀ name idx, (name, idx) ∈ names →
       ∃ l, landmarks !! idx = Some l ∧
            keypoints !! name
            = Some (kpt (VideoProcessor.int (VideoProcessor.lx l * IZR width))
                        (VideoProcessor.int (VideoProcessor.ly l * IZR height)))) ∧
    (∀ p, p ∉ names.*1 → keypoints !! p = acc !! p).
Proof.
  revert acc. induction names as [|[name idx] names IH]; intros acc Hnd.
  - split; [split; [constructor|by eexists]|].
    intros keypoints [= <-]. split; [|done].
    intros name idx Hin. by apply elem_of_nil in Hin.
  - apply NoDup_cons in Hnd as [Hfresh Hnd]. cbn [VideoProcessor.landmarks_loop].
    destruct (landmarks !! idx) as [l|] eqn:Hl.
    + destruct (IH (<[name := kpt (VideoProcessor.int (VideoProcessor.lx l * IZR width))
                                  (VideoProcessor.int (VideoProcessor.ly l * IZR height))]> acc)
                   Hnd) as [Hret Hspec].
      split.
      * rewrite Forall_cons, <- Hret. cbn [snd].
        apply lookup_lt_Some in Hl. unfold kpt. tauto.
      * intros keypoints Hrun. destruct (Hspec keypoints Hrun) as [Hin Hout].
        split.
        -- intros name' idx' Hmem. apply elem_of_cons in Hmem as [[= -> ->]|Hmem].
           ++ exists l. split; [done|]. rewrite Hout by done.
              apply lookup_insert_eq.
           ++ by apply Hin.
        -- intros p Hp. rewrite fmap_cons, not_elem_of_cons in Hp.
           destruct Hp as [Hne Hp]. cbn [fst] in Hne.
           rewrite Hout by done. by apply lookup_insert_ne.
    + split; [|done]. split; [by intros [? [=]]|].
      intros Hall. apply Forall_cons in Hall as [Hlt _]. cbn [snd] in Hlt.
      apply lookup_lt_is_Some in Hlt. rewrite Hl in Hlt. by destruct Hlt.
Qed.

Lemma keypoint_names_NoDup : NoDup VideoProcessor.keypoint_names.*1.
Proof. apply (bool_decide_unpack _). by vm_compute. Qed.

Lemma keypoint_names_indices n :
  Forall (fun ni : string * nat => (ni.2 < n)%nat) VideoProcessor.keypoint_names
  ↔ (28 < n)%nat.
Proof.
  unfold VideoProcessor.keypoint_names. rewrite !Forall_cons. cbn [snd].
  split; [intros H; decompose [and] H; lia|].
  intros H. repeat (split; [lia|]). constructor.
Qed.

Lemma analyzer_parts_extracted p :
  p ∈ (required_parts ++ important_parts)%list →
  p ∈ VideoProcessor.keypoint_names.*1.
Proof.
  intros Hp. apply (bool_decide_unpack _).
  unfold required_parts, important_parts in Hp. cbn [app] in Hp.
  repeat (apply elem_of_cons in Hp as [->|Hp]; [by vm_compute|]).
  by apply elem_of_nil in Hp.
Qed.

Lemma extract_landmarks_spec landmarks frame_shape keypoints :
  VideoProcessor._extract_landmarks landmarks frame_shape = Some keypoints →
  ∃ height width rest,
    frame_shape = height :: width :: rest ∧
    (∀ name idx, (name, idx) ∈ VideoProcessor.keypoint_names →
       ∃ l, landmarks !! idx = Some l ∧
            keypoints !! name
            = Some (kpt (VideoProcessor.int (VideoProcessor.lx l * IZR width))
                        (VideoProcessor.int (VideoProcessor.ly l * IZR height)))) ∧
    (∀ p, is_Some (keypoints !! p) ↔ p ∈ VideoProcessor.keypoint_names.*1) ∧
    wf_frame keypoints.
Proof.
  unfold VideoProcessor._extract_landmarks.
  destruct frame_shape as [|height [|width rest]]; [done..|]. intros Hrun.
  destruct (landmarks_loop_spec VideoProcessor.keypoint_names landmarks
              height width ∅ keypoint_names_NoDup) as [_ Hspec].
  destruct (Hspec keypoints Hrun) as [Hin Hout].
  assert (Hdom : ∀ p, is_Some (keypoints !! p)
                      ↔ p ∈ VideoProcessor.keypoint_names.*1).
  { intros p. split.
    - intros Hp.
      destruct (decide (p ∈ VideoProcessor.keypoint_names.*1)) as [|Hnot];
        [done|].
      rewrite (Hout p Hnot), lookup_empty in Hp. by destruct Hp.
    - intros Hp. apply list_elem_of_fmap in Hp as ([name idx] & -> & Hmem).
      cbn [fst]. destruct (Hin name idx Hmem) as (l & _ & ->). by eexists. }
  exists height, width, rest. do 3 (split; [done|]).
  intros p c Hpc.
  assert (Hp : p ∈ VideoProcessor.keypoint_names.*1) by (apply Hdom; by eexists).
  apply list_elem_of_fmap in Hp as ([name idx] & -> & Hmem).
  destruct (Hin name idx Hmem) as (l & _ & Hk). cbn [fst] in Hpc.
  rewrite Hk in Hpc. injection Hpc as <-. split; by eexists.
Qed.

(** X22: [_extract_landmarks] returns exactly when the frame shape has at
    least two dimensions and there are more than 28 landmarks; the dict it
    returns has the seventeen names of [keypoint_names] and no other, each
    with the pixel coordinates of its landmark, truncated towards zero; so
    every keypoint has both coordinates and every part that [_detect_fall]
    requires or [_calculate_velocities] tracks is present. *)
Theorem extract_landmarks_well_formed (landmarks : list VideoProcessor.Landmark)
    (frame_shape : list Z) :
  (is_Some (VideoProcessor._extract_landmarks landmarks frame_shape)
   ↔ (2 <= length frame_shape)%nat ∧ (28 < length landmarks)%nat) ∧
  ∀ keypoints,
    VideoProcessor._extract_landmarks landmarks frame_shape = Some keypoints →
    wf_frame keypoints ∧
    (∀ p, is_Some (keypoints !! p) ↔ p ∈ VideoProcessor.keypoint_names.*1) ∧
    (∀ name idx, (name, idx) ∈ VideoProcessor.keypoint_names →
       ∃ l, landmarks !! idx = Some l ∧
            keypoints !! name
            = Some (mkKeypoint
                      (Some (VideoProcessor.int
                               (VideoProcessor.lx l
                                * IZR (default 0%Z (frame_shape !! 1%nat)))))
                      (Some (VideoProcessor.int
                               (VideoProcessor.ly l
                                * IZR (default 0%Z (frame_shape !! 0%nat))))))) ∧
    (∀ p, p ∈ (required_parts ++ important_parts)%list →
          is_Some (keypoints !! p)).
Proof.
  split.
  - unfold VideoProcessor._extract_landmarks.
    destruct frame_shape as [|height [|width rest]].
    1,2: split; [by intros [? [=]]|simpl; lia].
    destruct (landmarks_loop_spec VideoProcessor.keypoint_names landmarks
                height width ∅ keypoint_names_NoDup) as [Hret _].
    rewrite Hret, keypoint_names_indices. simpl. intuition lia.
  - intros keypoints Hrun.
    destruct (extract_landmarks_spec _ _ _ Hrun)
      as (height & width & rest & -> & Hin & Hdom & Hwf).
    split; [done|]. split; [done|]. split.
    + intros name idx Hmem. destruct (Hin name idx Hmem) as (l & Hl & Hk).
      exists l. split; [done|]. exact Hk.
    + intros p Hp. by apply Hdom, analyzer_parts_extracted.
Qed.

Lemma extract_keypoints_cases frame pose :
  VideoProcessor.extract_keypoints frame pose = None ∨
  ∃ keypoints,
    VideoProcessor.extract_keypoints frame pose = Some (mkData (Some keypoints)) ∧
    wf_frame keypoints.
Proof.
  unfold VideoProcessor.extract_keypoints.
  destruct frame as [frame_shape|]; [|by left].
  destruct pose as [[pose_landmarks|]|]; [|by left..].
  destruct (VideoProcessor._extract_landmarks _ _) as [keypoints|] eqn:Hrun;
    [|by left].
  right. exists keypoints. split; [done|].
  by destruct (extract_landmarks_spec _ _ _ Hrun) as (? & ? & ? & _ & _ & _ & ?).
Qed.

Lemma call_no_alert_type clk keypoints_data d r d' :
  call clk keypoints_data d = (Ret r, d') →
  alert_type r = "none" ∨ alert_type r ∈ detector_alert_types.
Proof.
  intros Hcall. destruct (alert r) eqn:Halert.
  - right. by apply (call_alert_type _ _ _ _ _ Hcall).
  - left. revert Hcall. destruct keypoints_data as [[[keypoints|]]|].
    2,3: by intros [= <- <-].
    rewrite call_unfold.
    destruct (decide _); [by intros [= <- <-]|].
    destruct (calculate_velocities _ _) as [vel|e]; [|done].
    destruct (detection_results _ _ _ _) as [[results|e] w]; [|done].
    intros [= <- <-]. revert Halert. unfold _determine_alert.
    by destruct (alerts results).
Qed.

Lemma process_image_extracted extracted o b out r b' out' :
  from_extractor extracted → ready b →
  Backend.process_image extracted o b out = (r, b', out') →
  ready b' ∧ (alert_type r = "error_fallback" → Backend.emit_ok o = false).
Proof.
  intros (frame & pose & ->) (d & Hd & Hwf).
  unfold Backend.process_image. rewrite Hd.
  destruct (extract_keypoints_cases frame pose) as [->|(keypoints & -> & Hk)].
  { intros [= <- <- <-]. split; [by exists d|]. done. }
  destruct (call_returns (Backend.clock o) keypoints d Hk Hwf)
    as (r0 & d' & Hcall).
  pose proof (call_keeps_wf_detector _ _ _ _ _ Hk Hwf Hcall) as Hwf'.
  pose proof (call_no_alert_type _ _ _ _ _ Hcall) as Htype.
  rewrite Hcall.
  assert (Hr0 : alert_type r0 ≠ "error_fallback").
  { intros Heq. rewrite Heq in Htype. destruct Htype as [|Htype]; [done|].
    unfold detector_alert_types in Htype.
    repeat (apply elem_of_cons in Htype as [?|Htype]; [done|]).
    by apply elem_of_nil in Htype. }
  destruct (alert r0).
  - unfold Backend._handle_alert, Backend._log_alert.
    destruct (Backend.emit_ok o), (Backend.log_write_ok o);
      intros [= <- <- <-]; (split; [by exists d'|]); done.
  - intros [= <- <- <-]. split; [by exists d'|]. done.
Qed.

(** X23: on a backend whose components are initialized, images that decode
    and go through [extract_keypoints] never make the detector raise: over
    any stream of them an answer is the error fallback only when the
    broadcast of an alert failed, and the detector stays well formed. *)
Theorem extracted_frames_never_raise
    (frames : list (option (option KeypointsData) * Backend.Oracle))
    (b : Backend.SeizureDetectionBackend) (out : Backend.Outside) :
  ready b → Forall (fun fo => from_extractor fo.1) frames →
  let '(rs, b', out') := Backend.serve frames b out in
  ready b' ∧
  Forall2 (fun fo r => alert_type r = "error_fallback" →
                       Backend.emit_ok fo.2 = false) frames rs.
Proof.
  revert b out. induction frames as [|[extracted o] frames IH];
    intros b out Hb Hall.
  - split; [done|constructor].
  - apply Forall_cons in Hall as [Hex Hall]. cbn [fst] in Hex.
    cbn [Backend.serve].
    destruct (Backend.process_image extracted o b out) as [[r b1] out1] eqn:Hstep.
    destruct (process_image_extracted _ _ _ _ _ _ _ Hex Hb Hstep) as [Hb1 Hr].
    specialize (IH b1 out1 Hb1 Hall).
    destruct (Backend.serve frames b1 out1) as [[rs b2] out2].
    destruct IH as [Hb2 Hrs]. split; [done|]. by constructor.
Qed.

Lemma extracted_frames_never_raise_witness :
  ready (Backend.initialize_components Backend.init) ∧
  Forall (fun fo : option (option KeypointsData) * Backend.Oracle =>
            from_extractor fo.1)
         [camera_frame] ∧
  let '(rs, b', out') :=
    Backend.serve
      [camera_frame]
      (Backend.initialize_components Backend.init) (Backend.mkOutside [] []) in
  ready b' ∧
  Forall2 (fun fo r => alert_type r = "error_fallback" →
                       Backend.emit_ok fo.2 = false)
    [camera_frame] rs.
Proof.
  assert (Hb : ready (Backend.initialize_components Backend.init)).
  { exists init. split; [done|apply wf_detector_init]. }
  assert (Hall : Forall (fun fo : option (option KeypointsData) * Backend.Oracle =>
                           from_extractor fo.1)
                   [camera_frame]).
  { apply Forall_singleton. by eexists _, _. }
  split; [exact Hb|]. split; [exact Hall|].
  exact (extracted_frames_never_raise _ _ (Backend.mkOutside [] []) Hb Hall).
Defined.

End Extractor.

Section Pixels.

Local Open Scope R_scope.

Lemma int_in_range (r : R) (n : Z) :
  0 <= r < IZR n → (0 <= VideoProcessor.int r < n)%Z.
Proof.
  intros [Hr Hn]. unfold VideoProcessor.int. rewrite decide_True by done.
  destruct (base_Int_part r) as [Hle Hgt]. split.
  - assert (H : -1 < IZR (Int_part r)) by lra.
    apply lt_IZR in H. lia.
  - apply lt_IZR. lra.
Qed.

Lemma scaled_in_range (c : R) (n : Z) :
  0 <= c < 1 → (0 < n)%Z → 0 <= c * IZR n < IZR n.
Proof.
  intros [Hc0 Hc1] Hn. apply IZR_lt in Hn. split; [nra|nra].
Qed.

(** X24: when there are more than 28 landmarks, [_extract_landmarks]
    returns, and a landmark whose normalized coordinates lie in [0, 1) is
    given pixel coordinates inside a frame of positive height and width. *)
Theorem extracted_pixels_in_frame (landmarks : list VideoProcessor.Landmark)
    (height width : Z) (rest : list Z) (name : string) (idx : nat)
    (l : VideoProcessor.Landmark) :
  (28 < length landmarks)%nat →
  (name, idx) ∈ VideoProcessor.keypoint_names → landmarks !! idx = Some l →
  0 <= VideoProcessor.lx l < 1 → 0 <= VideoProcessor.ly l < 1 →
  (0 < height)%Z → (0 < width)%Z →
  ∃ keypoints x y,
    VideoProcessor._extract_landmarks landmarks (height :: width :: rest)
    = Some keypoints ∧
    keypoints !! name = Some (kpt x y) ∧
    (0 <= x < width)%Z ∧ (0 <= y < height)%Z.
Proof.
  intros Hlen Hmem Hl Hx Hy Hh Hw.
  destruct (landmarks_loop_spec VideoProcessor.keypoint_names landmarks
              height width ∅ keypoint_names_NoDup) as [Hret Hspec].
  assert (Hsome : is_Some (VideoProcessor._extract_landmarks landmarks
                             (height :: width :: rest))).
  { apply Hret. by apply keypoint_names_indices. }
  destruct Hsome as [keypoints Hrun].
  destruct (Hspec keypoints Hrun) as [Hin _].
  destruct (Hin name idx Hmem) as (l' & Hl' & Hk).
  assert (l' = l) as -> by congruence.
  eexists keypoints, _, _. split; [exact Hrun|]. split; [exact Hk|].
  split; apply int_in_range; by apply scaled_in_range.
Qed.

Lemma extracted_pixels_in_frame_witness :
  ∃ keypoints x y,
    VideoProcessor._extract_landmarks centered [480; 640; 3]%Z = Some keypoints ∧
    keypoints !! "nose" = Some (kpt x y) ∧
    (0 <= x < 640)%Z ∧ (0 <= y < 480)%Z.
Proof.
  apply (extracted_pixels_in_frame centered 480 640 [3%Z] "nose" 0
           (VideoProcessor.mkLandmark (1 / 2) (1 / 2) 0 1)).
  - unfold centered. rewrite length_replicate. lia.
  - apply list_elem_of_here.
  - reflexivity.
  - simpl. lra.
  - simpl. lra.
  - lia.
  - lia.
Defined.

End Pixels.
